(** * The drive-by-wire node ([ros/src/twist_controller/dbw_node.py])

    A shallow embedding of [DBWNode]: its fields, the five subscriber
    callbacks, [Compute_CTE], [publish] and the body of [loop], followed by
    the properties of the control tick, of the deviation estimator and of
    the actuation latch.

    Conventions of the embedding.
    - Python floats are idealised as real numbers ([R]): [+ - * /] and the
      comparisons are the exact ones, [math.pi] is [PI], [math.cos] and
      [math.sin] are [cos] and [sin]; rounding and NaN are outside the model.
    - A Python exception is a value [Raise e] of the type [result]; nothing
      in [dbw_node.py] catches an exception, so a [Raise] ends [loop].
    - What the node imports from elsewhere is a parameter: the quaternion
      conversion [tf.transformations.euler_from_quaternion], the fit
      [np.polyfit] (it may raise), and [Controller.control], which is given
      tick by tick because the controller object keeps state of its own.
      [rospy.get_time()] is the clock reading handed to each tick.
    - Subscriber callbacks are taken to run between two executions of the
      loop body. *)

From Stdlib Require Import Reals Lra List Bool.
Import ListNotations.
Open Scope R_scope.

(** ** Python values and exceptions *)

Inductive exn : Type :=
| AttributeError      (* attribute access on [None] *)
| TypeError           (* iteration over [None]; np.polyfit on an empty vector *)
| IndexError
| ZeroDivisionError
| LinAlgError.        (* raised inside np.polyfit *)

Inductive result (A : Type) : Type :=
| Ok (a : A)
| Raise (e : exn).

Arguments Ok {A} a.
Arguments Raise {A} e.

Definition bind {A B : Type} (m : result A) (k : A -> result B) : result B :=
  match m with
  | Ok a => k a
  | Raise e => Raise e
  end.

Notation "x <- m ;; k" := (bind m (fun x => k))
  (at level 61, m at next level, right associativity).
Notation "' p <- m ;; k" := (bind m (fun p => k))
  (at level 61, p pattern, m at next level, right associativity).

(** [obj.attr] where [obj] may be [None]. *)
Definition attr {A : Type} (o : option A) : result A :=
  match o with
  | Some a => Ok a
  | None => Raise AttributeError
  end.

(** [for ... in enumerate(obj)] where [obj] may be [None]. *)
Definition iter {A : Type} (o : option (list A)) : result (list A) :=
  match o with
  | Some l => Ok l
  | None => Raise TypeError
  end.

(** [l[i]] *)
Definition index {A : Type} (l : list A) (i : nat) : result A :=
  match nth_error l i with
  | Some a => Ok a
  | None => Raise IndexError
  end.

(** [a / b] on floats *)
Definition pydiv (a b : R) : result R :=
  if Req_dec_T b 0 then Raise ZeroDivisionError else Ok (a / b).

(** [x != None] *)
Definition is_not_None {A : Type} (o : option A) : bool :=
  match o with
  | Some _ => true
  | None => false
  end.

(** The comparisons [<], [>] and [!=] as tests. *)
Definition Rltb (x y : R) : bool := if Rlt_dec x y then true else false.
Definition Rgtb (x y : R) : bool := if Rgt_dec x y then true else false.
Definition Rneb (x y : R) : bool := if Req_dec_T x y then false else true.

(** ** Messages *)

Module Vector3.
Record t : Type := mk { x : R; y : R; z : R }.
End Vector3.

Module Point.
Record t : Type := mk { x : R; y : R; z : R }.
End Point.

Module Quaternion.
Record t : Type := mk { x : R; y : R; z : R; w : R }.
End Quaternion.

Module Twist.
Record t : Type := mk { linear : Vector3.t; angular : Vector3.t }.
End Twist.

Module Pose.
Record t : Type := mk { position : Point.t; orientation : Quaternion.t }.
End Pose.

(** [styx_msgs/Waypoint]: [pose] is what the node reaches as [wpt.pose.pose]. *)
Module Waypoint.
Record t : Type := mk { pose : Pose.t }.
End Waypoint.

Inductive pedal_cmd_type : Type := CMD_PERCENT | CMD_TORQUE.

Module ThrottleCmd.
Record t : Type := mk { enable : bool; pedal_cmd_type : pedal_cmd_type; pedal_cmd : R }.
End ThrottleCmd.

Module SteeringCmd.
Record t : Type := mk { enable : bool; steering_wheel_angle_cmd : R }.
End SteeringCmd.

Module BrakeCmd.
Record t : Type := mk { enable : bool; pedal_cmd_type : pedal_cmd_type; pedal_cmd : R }.
End BrakeCmd.

(** One call of [publish] on one of the three publishers of the node. *)
Inductive publication : Type :=
| throttle_pub (m : ThrottleCmd.t)
| steer_pub (m : SteeringCmd.t)
| brake_pub (m : BrakeCmd.t).

(** ** The node *)

Record DBWNode : Type := mkDBWNode {
  vehicle_mass : R;
  wheel_radius : R;
  dbw_enabled : bool;
  current_velocity : option Twist.t;
  finalwpts : option (list Waypoint.t);
  current_pose : option Point.t;
  current_orient : option Quaternion.t;
  twist_cmd : option Twist.t;
  CTE : R;
  heading_err : R;
  throttle_prev : R;
  steer_prev : R;
  brake_prev : R;
  brake_new : R;
  current_velocity_prev : R;
  current_velocity_new : R;
  prevtime : R
}.

(** [__init__], up to the call of [loop]: [mass] and [radius] are the two
    parameters read with [rospy.get_param] that the node keeps, [now] is
    [rospy.get_time()]. *)
Definition init (mass radius now : R) : DBWNode :=
  {| vehicle_mass := mass;
     wheel_radius := radius;
     dbw_enabled := false;
     current_velocity := None;
     finalwpts := None;
     current_pose := None;
     current_orient := None;
     twist_cmd := None;
     CTE := 0.0;
     heading_err := 0.0;
     throttle_prev := 0.0;
     steer_prev := 0.0;
     brake_prev := 0.0;
     brake_new := 0.0;
     current_velocity_prev := 0.0;
     current_velocity_new := 0.0;
     prevtime := now |}.

(** *** Assignments to the fields *)

Definition set_finalwpts (v : option (list Waypoint.t)) (s : DBWNode) : DBWNode :=
  mkDBWNode (vehicle_mass s) (wheel_radius s) (dbw_enabled s) (current_velocity s)
    v (current_pose s) (current_orient s) (twist_cmd s) (CTE s) (heading_err s)
    (throttle_prev s) (steer_prev s) (brake_prev s) (brake_new s)
    (current_velocity_prev s) (current_velocity_new s) (prevtime s).

Definition set_dbw_enabled (v : bool) (s : DBWNode) : DBWNode :=
  mkDBWNode (vehicle_mass s) (wheel_radius s) v (current_velocity s)
    (finalwpts s) (current_pose s) (current_orient s) (twist_cmd s) (CTE s) (heading_err s)
    (throttle_prev s) (steer_prev s) (brake_prev s) (brake_new s)
    (current_velocity_prev s) (current_velocity_new s) (prevtime s).

Definition set_current_pose (v : option Point.t) (s : DBWNode) : DBWNode :=
  mkDBWNode (vehicle_mass s) (wheel_radius s) (dbw_enabled s) (current_velocity s)
    (finalwpts s) v (current_orient s) (twist_cmd s) (CTE s) (heading_err s)
    (throttle_prev s) (steer_prev s) (brake_prev s) (brake_new s)
    (current_velocity_prev s) (current_velocity_new s) (prevtime s).

Definition set_current_orient (v : option Quaternion.t) (s : DBWNode) : DBWNode :=
  mkDBWNode (vehicle_mass s) (wheel_radius s) (dbw_enabled s) (current_velocity s)
    (finalwpts s) (current_pose s) v (twist_cmd s) (CTE s) (heading_err s)
    (throttle_prev s) (steer_prev s) (brake_prev s) (brake_new s)
    (current_velocity_prev s) (current_velocity_new s) (prevtime s).

Definition set_current_velocity (v : option Twist.t) (s : DBWNode) : DBWNode :=
  mkDBWNode (vehicle_mass s) (wheel_radius s) (dbw_enabled s) v
    (finalwpts s) (current_pose s) (current_orient s) (twist_cmd s) (CTE s) (heading_err s)
    (throttle_prev s) (steer_prev s) (brake_prev s) (brake_new s)
    (current_velocity_prev s) (current_velocity_new s) (prevtime s).

Definition set_twist_cmd (v : option Twist.t) (s : DBWNode) : DBWNode :=
  mkDBWNode (vehicle_mass s) (wheel_radius s) (dbw_enabled s) (current_velocity s)
    (finalwpts s) (current_pose s) (current_orient s) v (CTE s) (heading_err s)
    (throttle_prev s) (steer_prev s) (brake_prev s) (brake_new s)
    (current_velocity_prev s) (current_velocity_new s) (prevtime s).

Definition set_CTE (v : R) (s : DBWNode) : DBWNode :=
  mkDBWNode (vehicle_mass s) (wheel_radius s) (dbw_enabled s) (current_velocity s)
    (finalwpts s) (current_pose s) (current_orient s) (twist_cmd s) v (heading_err s)
    (throttle_prev s) (steer_prev s) (brake_prev s) (brake_new s)
    (current_velocity_prev s) (current_velocity_new s) (prevtime s).

Definition set_heading_err (v : R) (s : DBWNode) : DBWNode :=
  mkDBWNode (vehicle_mass s) (wheel_radius s) (dbw_enabled s) (current_velocity s)
    (finalwpts s) (current_pose s) (current_orient s) (twist_cmd s) (CTE s) v
    (throttle_prev s) (steer_prev s) (brake_prev s) (brake_new s)
    (current_velocity_prev s) (current_velocity_new s) (prevtime s).

Definition set_brake_prev (v : R) (s : DBWNode) : DBWNode :=
  mkDBWNode (vehicle_mass s) (wheel_radius s) (dbw_enabled s) (current_velocity s)
    (finalwpts s) (current_pose s) (current_orient s) (twist_cmd s) (CTE s) (heading_err s)
    (throttle_prev s) (steer_prev s) v (brake_new s)
    (current_velocity_prev s) (current_velocity_new s) (prevtime s).

Definition set_brake_new (v : R) (s : DBWNode) : DBWNode :=
  mkDBWNode (vehicle_mass s) (wheel_radius s) (dbw_enabled s) (current_velocity s)
    (finalwpts s) (current_pose s) (current_orient s) (twist_cmd s) (CTE s) (heading_err s)
    (throttle_prev s) (steer_prev s) (brake_prev s) v
    (current_velocity_prev s) (current_velocity_new s) (prevtime s).

Definition set_current_velocity_prev (v : R) (s : DBWNode) : DBWNode :=
  mkDBWNode (vehicle_mass s) (wheel_radius s) (dbw_enabled s) (current_velocity s)
    (finalwpts s) (current_pose s) (current_orient s) (twist_cmd s) (CTE s) (heading_err s)
    (throttle_prev s) (steer_prev s) (brake_prev s) (brake_new s)
    v (current_velocity_new s) (prevtime s).

Definition set_current_velocity_new (v : R) (s : DBWNode) : DBWNode :=
  mkDBWNode (vehicle_mass s) (wheel_radius s) (dbw_enabled s) (current_velocity s)
    (finalwpts s) (current_pose s) (current_orient s) (twist_cmd s) (CTE s) (heading_err s)
    (throttle_prev s) (steer_prev s) (brake_prev s) (brake_new s)
    (current_velocity_prev s) v (prevtime s).

Definition set_prevtime (v : R) (s : DBWNode) : DBWNode :=
  mkDBWNode (vehicle_mass s) (wheel_radius s) (dbw_enabled s) (current_velocity s)
    (finalwpts s) (current_pose s) (current_orient s) (twist_cmd s) (CTE s) (heading_err s)
    (throttle_prev s) (steer_prev s) (brake_prev s) (brake_new s)
    (current_velocity_prev s) (current_velocity_new s) v.

(** *** The subscriber callbacks *)

Definition finalwpts_cb (waypoints : list Waypoint.t) (s : DBWNode) : DBWNode :=
  set_finalwpts (Some waypoints) s.

Definition DBWEnabled_cb (data : bool) (s : DBWNode) : DBWNode :=
  set_dbw_enabled data s.

Definition CurrPose_cb (pose : Pose.t) (s : DBWNode) : DBWNode :=
  set_current_orient (Some (Pose.orientation pose))
    (set_current_pose (Some (Pose.position pose)) s).

Definition CurrVel_cb (twist : Twist.t) (s : DBWNode) : DBWNode :=
  set_current_velocity (Some twist) s.

Definition TwistCmd_cb (twist : Twist.t) (s : DBWNode) : DBWNode :=
  set_twist_cmd (Some twist) s.

(** *** [publish] *)

Definition publish (s : DBWNode) (throttle brake steer : R) : list publication :=
  let tcmd := ThrottleCmd.mk true CMD_PERCENT throttle in
  let scmd := SteeringCmd.mk true steer in
  let bcmd := BrakeCmd.mk true CMD_TORQUE brake in
  (if Rneb (throttle_prev s) throttle then [throttle_pub tcmd] else [])
  ++ (if Rneb (steer_prev s) steer then [steer_pub scmd] else [])
  ++ (if Rneb (brake_prev s) brake then [brake_pub bcmd] else []).

(** *** [math.atan2] and [np.polyval] *)

Definition atan2 (y x : R) : R :=
  if Rlt_dec 0 x then atan (y / x)
  else if Rlt_dec x 0 then
         (if Rle_dec 0 y then atan (y / x) + PI else atan (y / x) - PI)
  else if Rlt_dec 0 y then PI / 2
  else if Rlt_dec y 0 then - (PI / 2)
  else 0.

(** Horner's scheme, highest power first, as numpy evaluates it. *)
Definition polyval (p : list R) (x : R) : R :=
  fold_left (fun acc c => acc * x + c) p 0.

(** *** [Compute_CTE] and the loop body *)

(** The arguments and the result of [Controller.control]. *)
Definition controller : Type :=
  R -> R -> R -> R -> R -> R -> bool -> R * R * R.

(** What one execution of the loop body leaves to be seen from outside:
    the calls of [publish] on the three publishers, in order, and the values
    of its locals [dt], [accel_meas] and [decel_calc] ([None] when the body
    was skipped). *)
Record tick_obs : Type := mk_tick_obs {
  published : list publication;
  diagnostics : option (R * R * R)
}.

Section Node.

Variable euler_from_quaternion : list R -> R * R * R.
Variable polyfit : list R -> list R -> nat -> result (list R).

(** Lines 193-197: one waypoint taken to the car body frame; [yaw] is the
    local [yaw] after line 187. *)
Definition car_body (global_car_x global_car_y yaw : R) (wpt : Waypoint.t) : R * R :=
  let del_x := Point.x (Pose.position (Waypoint.pose wpt)) - global_car_x in
  let del_y := Point.y (Pose.position (Waypoint.pose wpt)) - global_car_y in
  let temp1 := del_x * cos yaw - del_y * sin yaw in
  let temp2 := del_x * sin yaw + del_y * cos yaw in
  (temp1, temp2).

Definition Compute_CTE (s : DBWNode) : result (R * R) :=
  pos <- attr (current_pose s) ;;
  let global_car_x := Point.x pos in
  let global_car_y := Point.y pos in
  orient <- attr (current_orient s) ;;
  let '(roll, pitch, yaw) :=
    euler_from_quaternion [Quaternion.x orient; Quaternion.y orient;
                           Quaternion.z orient; Quaternion.w orient] in
  let yaw := -1 * yaw in
  wpts <- iter (finalwpts s) ;;
  let body := map (car_body global_car_x global_car_y yaw) wpts in
  let x_car_body := map fst body in
  let y_car_body := map snd body in
  coeff_3rd <- polyfit x_car_body y_car_body 3 ;;
  slope <- index coeff_3rd 2 ;;
  let heading_err := atan2 slope 1.0 in
  let heading_err := if Rgtb heading_err (PI / 2) then PI / 2 else heading_err in
  let heading_err := if Rltb heading_err (- (PI / 2)) then - (PI / 2) else heading_err in
  let CTE := polyval coeff_3rd 0.0 in
  let CTE := if Rgtb CTE 5.0 then 5.0 else CTE in
  let CTE := if Rltb CTE (-5.0) then -5.0 else CTE in
  Ok (CTE, heading_err).

(** The body of the [while] of [loop], lines 88-136; [time] is what
    [rospy.get_time()] returns on line 118. The prints under [DEBUG] and
    under [if False] are not executed. *)
Definition loop_body (control : controller) (time : R) (s : DBWNode)
  : result (DBWNode * tick_obs) :=
  if is_not_None (finalwpts s) && is_not_None (current_velocity s) then
    tw <- attr (twist_cmd s) ;;
    let proposed_linear_velocity := Vector3.x (Twist.linear tw) in
    let proposed_angular_velocity := Vector3.z (Twist.angular tw) in
    cv <- attr (current_velocity s) ;;
    let current_linear_velocity := Vector3.x (Twist.linear cv) in
    let current_angular_velocity := Vector3.z (Twist.angular cv) in
    '(cte, he) <- Compute_CTE s ;;
    let s := set_heading_err he (set_CTE cte s) in
    let dbw_status := dbw_enabled s in
    let '(throttle, brake, steering) :=
      control proposed_linear_velocity proposed_angular_velocity
              current_linear_velocity current_angular_velocity
              (CTE s) proposed_angular_velocity dbw_status in
    let s := set_brake_prev (brake_new s) s in
    let s := set_brake_new brake s in
    let s := set_current_velocity_prev (current_velocity_new s) s in
    let s := set_current_velocity_new current_linear_velocity s in
    let dt := time - prevtime s in
    let s := set_prevtime time s in
    let dt := if Rltb dt 1e-3 then 0.1 else dt in
    accel_meas <- pydiv (current_velocity_new s - current_velocity_prev s) dt ;;
    decel_calc <- pydiv (- brake_prev s) (wheel_radius s * vehicle_mass s) ;;
    let pubs := if dbw_status then publish s throttle brake steering else [] in
    Ok (s, mk_tick_obs pubs (Some (dt, accel_meas, decel_calc)))
  else
    Ok (s, mk_tick_obs [] None).

(** *** Runs of the node *)

(** What happens to the node: a message arrives on one of the five topics,
    or the loop body is executed once. *)
Inductive event : Type :=
| final_waypoints (waypoints : list Waypoint.t)
| vehicle_dbw_enabled (data : bool)
| current_pose_msg (pose : Pose.t)
| current_velocity_msg (twist : Twist.t)
| twist_cmd_msg (twist : Twist.t)
| tick (control : controller) (time : R).

Definition step (ev : event) (s : DBWNode) : result (DBWNode * list publication) :=
  match ev with
  | final_waypoints w => Ok (finalwpts_cb w s, [])
  | vehicle_dbw_enabled b => Ok (DBWEnabled_cb b s, [])
  | current_pose_msg p => Ok (CurrPose_cb p s, [])
  | current_velocity_msg t => Ok (CurrVel_cb t s, [])
  | twist_cmd_msg t => Ok (TwistCmd_cb t s, [])
  | tick control time =>
      '(s', obs) <- loop_body control time s ;;
      Ok (s', published obs)
  end.

(** The publications of a run, and how it ends: in a state of the node, or
    with the exception that ended [loop]. *)
Fixpoint run (evs : list event) (s : DBWNode) : list publication * result DBWNode :=
  match evs with
  | [] => ([], Ok s)
  | ev :: evs' =>
      match step ev s with
      | Raise e => ([], Raise e)
      | Ok (s', pubs) =>
          let '(rest, r) := run evs' s' in (pubs ++ rest, r)
      end
  end.

End Node.

(** ** Reading the definitions *)

(** *** Tests on reals *)

Lemma Rltb_true (x y : R) : x < y -> Rltb x y = true.
Proof. intros H. unfold Rltb. destruct (Rlt_dec x y); [reflexivity | contradiction]. Qed.

Lemma Rltb_false (x y : R) : y <= x -> Rltb x y = false.
Proof. intros H. unfold Rltb. destruct (Rlt_dec x y); [lra | reflexivity]. Qed.

Lemma Rgtb_true (x y : R) : y < x -> Rgtb x y = true.
Proof. intros H. unfold Rgtb. destruct (Rgt_dec x y); [reflexivity | lra]. Qed.

Lemma Rgtb_false (x y : R) : x <= y -> Rgtb x y = false.
Proof. intros H. unfold Rgtb. destruct (Rgt_dec x y); [lra | reflexivity]. Qed.

Lemma Rneb_same (x : R) : Rneb x x = false.
Proof. unfold Rneb. destruct (Req_dec_T x x); [reflexivity | contradiction]. Qed.

Lemma Rneb_true (x y : R) : x <> y -> Rneb x y = true.
Proof. intros H. unfold Rneb. destruct (Req_dec_T x y); [contradiction | reflexivity]. Qed.

Lemma pydiv_ok (a b : R) : b <> 0 -> pydiv a b = Ok (a / b).
Proof. intros H. unfold pydiv. destruct (Req_dec_T b 0); [contradiction | reflexivity]. Qed.

(** *** The two clamps of [Compute_CTE] *)

(** The pair of [if]s of lines 226-229 and 234-237, for bounds [lo <= hi]. *)
Definition clamp_ifs (lo hi v : R) : R :=
  let v := if Rgtb v hi then hi else v in
  if Rltb v lo then lo else v.

(** Clamping as the specification has it. *)
Definition clamp (lo hi v : R) : R := Rmax lo (Rmin hi v).

Lemma clamp_ifs_clamp (lo hi v : R) : lo <= hi -> clamp_ifs lo hi v = clamp lo hi v.
Proof.
  intros Hb. unfold clamp_ifs, clamp, Rgtb, Rltb, Rmax, Rmin.
  destruct (Rgt_dec v hi); destruct (Rle_dec hi v); try lra;
    match goal with
    | |- context [Rlt_dec ?a ?b] => destruct (Rlt_dec a b)
    end;
    match goal with
    | |- context [Rle_dec ?a ?b] => destruct (Rle_dec a b)
    end; lra.
Qed.

Lemma clamp_bounds (lo hi v : R) : lo <= hi -> lo <= clamp lo hi v <= hi.
Proof.
  intros Hb. unfold clamp, Rmax, Rmin.
  destruct (Rle_dec hi v);
    match goal with
    | |- context [Rle_dec ?a ?b] => destruct (Rle_dec a b)
    end; lra.
Qed.

Lemma clamp_inside (lo hi v : R) : lo <= v <= hi -> clamp lo hi v = v.
Proof.
  intros [H1 H2]. unfold clamp, Rmax, Rmin.
  destruct (Rle_dec hi v);
    match goal with
    | |- context [Rle_dec ?a ?b] => destruct (Rle_dec a b)
    end; lra.
Qed.

Lemma PI2_bounds : - (PI / 2) <= PI / 2.
Proof. pose proof PI_RGT_0. lra. Qed.

(** *** [atan2] and [polyval] at the arguments the node uses *)

Lemma atan2_x_pos (y x : R) : 0 < x -> atan2 y x = atan (y / x).
Proof. intros H. unfold atan2. destruct (Rlt_dec 0 x); [reflexivity | contradiction]. Qed.

Lemma atan2_1 (y : R) : atan2 y 1.0 = atan y.
Proof. rewrite atan2_x_pos by lra. f_equal. lra. Qed.

Lemma polyval_cubic (a b c d x : R) :
  polyval [a; b; c; d] x = a * x ^ 3 + b * x ^ 2 + c * x + d.
Proof. unfold polyval. simpl. ring. Qed.

Lemma polyval_cubic_0 (a b c d : R) : polyval [a; b; c; d] 0.0 = d.
Proof. rewrite polyval_cubic. lra. Qed.

(** *** [Compute_CTE] *)

Section Estimator.

Variable euler_from_quaternion : list R -> R * R * R.
Variable polyfit : list R -> list R -> nat -> result (list R).

(** The yaw after line 187. *)
Definition corrected_yaw (orient : Quaternion.t) : R :=
  -1 * snd (euler_from_quaternion
              [Quaternion.x orient; Quaternion.y orient;
               Quaternion.z orient; Quaternion.w orient]).

(** The points handed to [np.polyfit]. *)
Definition body_points (pos : Point.t) (orient : Quaternion.t) (wpts : list Waypoint.t)
  : list (R * R) :=
  map (car_body (Point.x pos) (Point.y pos) (corrected_yaw orient)) wpts.

(** Lines 220-239, from the coefficients on. *)
Definition from_coefficients (coeff_3rd : list R) : result (R * R) :=
  slope <- index coeff_3rd 2 ;;
  Ok (clamp_ifs (-5.0) 5.0 (polyval coeff_3rd 0.0),
      clamp_ifs (- (PI / 2)) (PI / 2) (atan2 slope 1.0)).

Lemma Compute_CTE_unfold (s : DBWNode) pos orient wpts :
  current_pose s = Some pos ->
  current_orient s = Some orient ->
  finalwpts s = Some wpts ->
  Compute_CTE euler_from_quaternion polyfit s =
    (coeff_3rd <- polyfit (map fst (body_points pos orient wpts))
                          (map snd (body_points pos orient wpts)) 3 ;;
     from_coefficients coeff_3rd).
Proof.
  intros Hp Ho Hw. unfold Compute_CTE, body_points, corrected_yaw.
  rewrite Hp, Ho, Hw. cbn [attr iter bind].
  destruct (euler_from_quaternion _) as [[roll pitch] yaw]. cbn [snd].
  reflexivity.
Qed.

Lemma from_coefficients_cubic (a b c d : R) :
  from_coefficients [a; b; c; d] =
    Ok (clamp (-5) 5 d, clamp (- (PI / 2)) (PI / 2) (atan c)).
Proof.
  unfold from_coefficients, index. cbn [nth_error bind].
  rewrite polyval_cubic_0, atan2_1.
  rewrite !clamp_ifs_clamp by (try apply PI2_bounds; lra).
  do 2 f_equal. f_equal; lra.
Qed.

End Estimator.

(** *** The loop body *)

(** The three channels of the latch. *)
Inductive channel : Type := Throttle | Steer | Brake.

Definition on_channel (ch : channel) (p : publication) : bool :=
  match ch, p with
  | Throttle, throttle_pub _ => true
  | Steer, steer_pub _ => true
  | Brake, brake_pub _ => true
  | _, _ => false
  end.

(** The number of calls of [publish] on the publisher of a channel. *)
Definition calls (ch : channel) (pubs : list publication) : nat :=
  length (filter (on_channel ch) pubs).

(** The [dt] of line 119 after the test of line 122. *)
Definition dt_used (time prev : R) : R :=
  if Rltb (time - prev) 1e-3 then 0.1 else time - prev.

(** The fields after a loop body that ran to its end. *)
Definition after_tick (s : DBWNode) (cte he brake current_linear_velocity time : R)
  : DBWNode :=
  mkDBWNode (vehicle_mass s) (wheel_radius s) (dbw_enabled s) (current_velocity s)
    (finalwpts s) (current_pose s) (current_orient s) (twist_cmd s) cte he
    (throttle_prev s) (steer_prev s) (brake_new s) brake
    (current_velocity_new s) current_linear_velocity time.

(** The call of line 102. *)
Definition control_call (control : controller) (tw cv : Twist.t) (cte : R) (dbw_status : bool)
  : R * R * R :=
  control (Vector3.x (Twist.linear tw)) (Vector3.z (Twist.angular tw))
          (Vector3.x (Twist.linear cv)) (Vector3.z (Twist.angular cv))
          cte (Vector3.z (Twist.angular tw)) dbw_status.

Lemma dt_used_nonzero (time prev : R) : dt_used time prev <> 0.
Proof.
  unfold dt_used, Rltb. destruct (Rlt_dec (time - prev) 1e-3); lra.
Qed.

Lemma dt_used_floor (time prev : R) : time - prev < 1e-3 -> dt_used time prev = 0.1.
Proof. intros H. unfold dt_used. rewrite Rltb_true by exact H. reflexivity. Qed.

Lemma dt_used_raw (time prev : R) : 1e-3 <= time - prev -> dt_used time prev = time - prev.
Proof. intros H. unfold dt_used. rewrite Rltb_false by exact H. reflexivity. Qed.

Section Tick.

Variable efq : list R -> R * R * R.
Variable fit : list R -> list R -> nat -> result (list R).

(** The body is skipped while the path or the velocity is [None]. *)
Lemma loop_body_skip control time s :
  finalwpts s = None \/ current_velocity s = None ->
  loop_body efq fit control time s = Ok (s, mk_tick_obs [] None).
Proof.
  intros [H | H]; unfold loop_body; rewrite H; cbn [is_not_None andb].
  - reflexivity.
  - rewrite andb_false_r. reflexivity.
Qed.

(** The body with every input there, the estimator returning and a wheel
    radius and a mass that are not zero. *)
Lemma loop_body_ready control time s wpts cv tw cte he throttle brake steering :
  finalwpts s = Some wpts ->
  current_velocity s = Some cv ->
  twist_cmd s = Some tw ->
  Compute_CTE efq fit s = Ok (cte, he) ->
  control_call control tw cv cte (dbw_enabled s) = (throttle, brake, steering) ->
  wheel_radius s * vehicle_mass s <> 0 ->
  let clv := Vector3.x (Twist.linear cv) in
  let s' := after_tick s cte he brake clv time in
  loop_body efq fit control time s =
    Ok (s',
        mk_tick_obs
          (if dbw_enabled s then publish s' throttle brake steering else [])
          (Some (dt_used time (prevtime s),
                 (clv - current_velocity_new s) / dt_used time (prevtime s),
                 - brake_new s / (wheel_radius s * vehicle_mass s)))).
Proof.
  intros Hw Hv Ht Hc Hctl Hz clv s'.
  unfold loop_body.
  rewrite Hw, Hv, Ht, Hc. cbn [is_not_None andb attr bind].
  unfold control_call in Hctl.
  cbn [CTE dbw_enabled set_heading_err set_CTE].
  rewrite Hctl.
  cbn [set_brake_prev set_brake_new set_current_velocity_prev set_current_velocity_new
       set_prevtime set_heading_err set_CTE
       vehicle_mass wheel_radius dbw_enabled current_velocity finalwpts current_pose
       current_orient twist_cmd CTE heading_err throttle_prev steer_prev brake_prev
       brake_new current_velocity_prev current_velocity_new prevtime].
  fold (dt_used time (prevtime s)).
  rewrite pydiv_ok by apply dt_used_nonzero.
  cbn [bind].
  rewrite pydiv_ok by exact Hz.
  cbn [bind]. reflexivity.
Qed.

(** What a loop body that returns has done: nothing, or all of the above. *)
Lemma loop_body_inv control time s s' obs :
  loop_body efq fit control time s = Ok (s', obs) ->
  (s' = s /\ obs = mk_tick_obs [] None /\
     (finalwpts s = None \/ current_velocity s = None))
  \/
  (exists wpts cv tw cte he throttle brake steering,
      finalwpts s = Some wpts /\ current_velocity s = Some cv /\ twist_cmd s = Some tw /\
      Compute_CTE efq fit s = Ok (cte, he) /\
      control_call control tw cv cte (dbw_enabled s) = (throttle, brake, steering) /\
      wheel_radius s * vehicle_mass s <> 0 /\
      s' = after_tick s cte he brake (Vector3.x (Twist.linear cv)) time /\
      obs = mk_tick_obs
              (if dbw_enabled s then publish s' throttle brake steering else [])
              (Some (dt_used time (prevtime s),
                     (Vector3.x (Twist.linear cv) - current_velocity_new s)
                       / dt_used time (prevtime s),
                     - brake_new s / (wheel_radius s * vehicle_mass s)))).
Proof.
  intros H.
  destruct (finalwpts s) as [wpts |] eqn:Hw.
  2:{ rewrite loop_body_skip in H by (left; exact Hw).
      inversion H; subst. left. auto. }
  destruct (current_velocity s) as [cv |] eqn:Hv.
  2:{ rewrite loop_body_skip in H by (right; exact Hv).
      inversion H; subst. left. auto. }
  right.
  destruct (twist_cmd s) as [tw |] eqn:Ht.
  2:{ unfold loop_body in H. rewrite Hw, Hv, Ht in H. discriminate H. }
  destruct (Compute_CTE efq fit s) as [[cte he] | e] eqn:Hc.
  2:{ unfold loop_body in H. rewrite Hw, Hv, Ht, Hc in H. discriminate H. }
  destruct (control_call control tw cv cte (dbw_enabled s)) as [[throttle brake] steering] eqn:Hctl.
  destruct (Req_dec_T (wheel_radius s * vehicle_mass s) 0) as [Hz | Hz].
  { exfalso. unfold loop_body in H.
    rewrite Hw, Hv, Ht, Hc in H. cbn [is_not_None andb attr bind] in H.
    unfold control_call in Hctl.
    cbn [CTE dbw_enabled set_heading_err set_CTE] in H.
    rewrite Hctl in H.
    cbn [set_brake_prev set_brake_new set_current_velocity_prev set_current_velocity_new
         set_prevtime set_heading_err set_CTE
         vehicle_mass wheel_radius dbw_enabled current_velocity finalwpts current_pose
         current_orient twist_cmd CTE heading_err throttle_prev steer_prev brake_prev
         brake_new current_velocity_prev current_velocity_new prevtime] in H.
    fold (dt_used time (prevtime s)) in H.
    rewrite pydiv_ok in H by apply dt_used_nonzero.
    cbn [bind] in H. unfold pydiv in H.
    destruct (Req_dec_T (wheel_radius s * vehicle_mass s) 0); [discriminate H | contradiction]. }
  rewrite (loop_body_ready control time s _ _ _ _ _ _ _ _ Hw Hv Ht Hc Hctl Hz) in H.
  inversion H; subst.
  exists wpts, cv, tw, cte, he, throttle, brake, steering.
  repeat split; auto.
Qed.

End Tick.

(** ** Concrete inputs

    The inputs at which the statements below are exercised: a level car at
    the origin of the world frame, heading along the world x-axis, and
    waypoints on that axis. *)

(** [euler_from_quaternion] for a car that is level and heads along x. *)
Definition efq_level : list R -> R * R * R := fun _ => (0, 0, 0).

(** [np.polyfit] on points that all have [y = 0]: the least-squares
    solution is the zero polynomial; an empty vector is refused. *)
Definition fit_on_axis : list R -> list R -> nat -> result (list R) :=
  fun xs _ _ =>
    match xs with
    | [] => Raise TypeError
    | _ :: _ => Ok [0; 0; 0; 0]
    end.

(** A controller that returns the same triple whatever it is given. *)
Definition constant_control (throttle brake steer : R) : controller :=
  fun _ _ _ _ _ _ _ => (throttle, brake, steer).

Definition q_level : Quaternion.t := Quaternion.mk 0 0 0 1.

Definition wp (x y : R) : Waypoint.t :=
  Waypoint.mk (Pose.mk (Point.mk x y 0) q_level).

Definition pose_origin : Pose.t := Pose.mk (Point.mk 0 0 0) q_level.

Definition twist_of (v w : R) : Twist.t :=
  Twist.mk (Vector3.mk v 0 0) (Vector3.mk 0 0 w).

Definition four_ahead : list Waypoint.t := [wp 1 0; wp 2 0; wp 3 0; wp 4 0].

Definition three_ahead : list Waypoint.t := [wp 1 0; wp 2 0; wp 3 0].

(** Waypoints on the world y-axis: ahead of a car that heads along y. *)
Definition four_north : list Waypoint.t := [wp 0 1; wp 0 2; wp 0 3; wp 0 4].

(** The node with the default mass and wheel radius, started at time 0. *)
Definition started : DBWNode := init 1736.35 0.2413 0.

(** The node after one message on each of the four data topics; the enable
    flag is still the initial one. *)
Definition fed (wpts : list Waypoint.t) : DBWNode :=
  TwistCmd_cb (twist_of 10 0)
    (CurrVel_cb (twist_of 8 0)
       (CurrPose_cb pose_origin (finalwpts_cb wpts started))).

Lemma default_radius_mass : 0.2413 * 1736.35 <> 0.
Proof. lra. Qed.

Lemma Compute_CTE_fed (w : Waypoint.t) (wpts : list Waypoint.t) :
  Compute_CTE efq_level fit_on_axis (fed (w :: wpts)) =
    Ok (clamp (-5) 5 0, clamp (- (PI / 2)) (PI / 2) (atan 0)).
Proof.
  rewrite (Compute_CTE_unfold efq_level fit_on_axis (fed (w :: wpts))
             (Point.mk 0 0 0) q_level (w :: wpts) eq_refl eq_refl eq_refl).
  cbn [body_points map fit_on_axis bind].
  apply from_coefficients_cubic.
Qed.

(** ** The enable gate (C7, C10) *)

Section Gate.

Variable efq : list R -> R * R * R.
Variable fit : list R -> list R -> nat -> result (list R).

(** With the flag false the loop body publishes nothing, however it ends,
    and leaves the flag false. *)
Lemma loop_body_disabled control time s s' obs :
  dbw_enabled s = false ->
  loop_body efq fit control time s = Ok (s', obs) ->
  published obs = [] /\ dbw_enabled s' = false.
Proof.
  intros Hd H.
  destruct (loop_body_inv _ _ _ _ _ _ _ H) as
    [(-> & -> & _) | (wpts & cv & tw & cte & he & th & br & st & _ & _ & _ & _ & _ & _ & -> & ->)].
  - split; [reflexivity | exact Hd].
  - rewrite Hd. split; [reflexivity | exact Hd].
Qed.

(** No message that sets the flag to true. *)
Definition no_enable (evs : list (event)) : bool :=
  forallb (fun ev => match ev with
                     | vehicle_dbw_enabled true => false
                     | _ => true
                     end) evs.

Lemma run_disabled evs : forall s,
  dbw_enabled s = false ->
  no_enable evs = true ->
  fst (run efq fit evs s) = [].
Proof.
  induction evs as [| ev evs IH]; intros s Hd Hn; [reflexivity |].
  cbn [no_enable forallb] in Hn. apply andb_true_iff in Hn. destruct Hn as [Hev Hn].
  cbn [run].
  destruct (step efq fit ev s) as [[s' pubs] | e] eqn:Hs; [| reflexivity].
  assert (Hs' : pubs = [] /\ dbw_enabled s' = false).
  { destruct ev as [w | b | p | t | t | control time]; cbn [step] in Hs.
    - inversion Hs; subst. split; [reflexivity | exact Hd].
    - destruct b; [discriminate Hev |]. inversion Hs; subst. split; reflexivity.
    - inversion Hs; subst. split; [reflexivity | exact Hd].
    - inversion Hs; subst. split; [reflexivity | exact Hd].
    - inversion Hs; subst. split; [reflexivity | exact Hd].
    - destruct (loop_body efq fit control time s) as [[s1 obs] | e] eqn:Hb;
        [| discriminate Hs].
      cbn [bind] in Hs. inversion Hs; subst.
      exact (loop_body_disabled _ _ _ _ _ Hd Hb). }
  destruct Hs' as [-> Hd'].
  specialize (IH s' Hd' Hn).
  destruct (run efq fit evs s') as [rest r]. cbn [fst] in IH |- *.
  rewrite IH. reflexivity.
Qed.

End Gate.

(** C10. The node starts with [dbw_enabled] false, and a run from the
    initial state in which no message on [/vehicle/dbw_enabled] carries
    [True] publishes nothing on any of the three publishers, however many
    loop bodies are executed, whatever the controller returns and whatever
    arrives on the other topics. *)
Theorem no_publication_before_enable
  (efq : list R -> R * R * R) (fit : list R -> list R -> nat -> result (list R))
  (mass radius now : R) (evs : list event) :
  no_enable evs = true ->
  dbw_enabled (init mass radius now) = false /\
  fst (run efq fit evs (init mass radius now)) = [] /\
  forall ch, calls ch (fst (run efq fit evs (init mass radius now))) = 0%nat.
Proof.
  intros Hn.
  assert (H : fst (run efq fit evs (init mass radius now)) = [])
    by (apply run_disabled; [reflexivity | exact Hn]).
  split; [reflexivity | split; [exact H |]].
  intros ch. rewrite H. reflexivity.
Qed.

(** Ticks with a controller that asks for throttle, brake and steering, on a
    node that has all its data but was never enabled. *)
Definition ticks_before_enable : list event :=
  [ final_waypoints four_ahead; current_pose_msg pose_origin;
    current_velocity_msg (twist_of 8 0); twist_cmd_msg (twist_of 10 0);
    tick (constant_control 0.5 20 0.1) 0.1;
    vehicle_dbw_enabled false;
    tick (constant_control 0.6 0 0.2) 0.2;
    tick (constant_control 0.7 0 0.3) 0.3 ].

Lemma no_publication_before_enable_witness :
  no_enable ticks_before_enable = true /\
  dbw_enabled started = false /\
  fst (run efq_level fit_on_axis ticks_before_enable started) = [] /\
  forall ch, calls ch (fst (run efq_level fit_on_axis ticks_before_enable started)) = 0%nat.
Proof.
  split; [reflexivity |].
  exact (no_publication_before_enable efq_level fit_on_axis 1736.35 0.2413 0
           ticks_before_enable eq_refl).
Defined.

(** C7. A loop body executed with [dbw_enabled] false (all inputs there,
    the estimator returning) runs to its end, calls no publisher whatever
    the controller returned, and still moves the bookkeeping on:
    [brake_prev] takes the old [brake_new], [brake_new] the controller's
    brake, [current_velocity_prev] the old [current_velocity_new],
    [current_velocity_new] the measured velocity and [prevtime] the clock. *)
Theorem disabled_tick_publishes_nothing_but_advances
  (efq : list R -> R * R * R) (fit : list R -> list R -> nat -> result (list R))
  (control : controller) (time : R) (s : DBWNode)
  (wpts : list Waypoint.t) (cv tw : Twist.t) (cte he throttle brake steering : R) :
  dbw_enabled s = false ->
  finalwpts s = Some wpts ->
  current_velocity s = Some cv ->
  twist_cmd s = Some tw ->
  Compute_CTE efq fit s = Ok (cte, he) ->
  control_call control tw cv cte false = (throttle, brake, steering) ->
  wheel_radius s * vehicle_mass s <> 0 ->
  exists s' obs,
    loop_body efq fit control time s = Ok (s', obs) /\
    published obs = [] /\
    (forall ch, calls ch (published obs) = 0%nat) /\
    brake_prev s' = brake_new s /\
    brake_new s' = brake /\
    current_velocity_prev s' = current_velocity_new s /\
    current_velocity_new s' = Vector3.x (Twist.linear cv) /\
    prevtime s' = time.
Proof.
  intros Hd Hw Hv Ht Hc Hctl Hz.
  rewrite <- Hd in Hctl.
  pose proof (loop_body_ready efq fit control time s _ _ _ _ _ _ _ _ Hw Hv Ht Hc Hctl Hz) as H.
  cbv zeta in H. rewrite Hd in H.
  eexists. eexists. split; [exact H |].
  cbn [published after_tick brake_prev brake_new current_velocity_prev
       current_velocity_new prevtime].
  repeat split; reflexivity.
Qed.

Lemma disabled_tick_publishes_nothing_but_advances_witness :
  exists s' obs,
    loop_body efq_level fit_on_axis (constant_control 0.5 20 0.1) 0.1 (fed four_ahead)
      = Ok (s', obs) /\
    published obs = [] /\
    (forall ch, calls ch (published obs) = 0%nat) /\
    brake_prev s' = brake_new (fed four_ahead) /\
    brake_new s' = 20 /\
    current_velocity_prev s' = current_velocity_new (fed four_ahead) /\
    current_velocity_new s' = Vector3.x (Twist.linear (twist_of 8 0)) /\
    prevtime s' = 0.1.
Proof.
  exact (disabled_tick_publishes_nothing_but_advances
           efq_level fit_on_axis (constant_control 0.5 20 0.1) 0.1 (fed four_ahead)
           four_ahead (twist_of 8 0) (twist_of 10 0) _ _ 0.5 20 0.1
           eq_refl eq_refl eq_refl eq_refl
           (Compute_CTE_fed (wp 1 0) [wp 2 0; wp 3 0; wp 4 0])
           eq_refl default_radius_mass).
Defined.

(** ** The timing floor (C9) *)

(** The publications of a loop body, whichever way it ends. *)
Definition publications_of (r : result (DBWNode * tick_obs)) : list publication :=
  match r with
  | Ok (_, obs) => published obs
  | Raise _ => []
  end.

(** The clock has no part in what is published. *)
Lemma publications_clock_free
  (efq : list R -> R * R * R) (fit : list R -> list R -> nat -> result (list R))
  (control : controller) (s : DBWNode) (time time' : R) :
  publications_of (loop_body efq fit control time s) =
  publications_of (loop_body efq fit control time' s).
Proof.
  destruct (finalwpts s) as [wpts |] eqn:Hw.
  2:{ rewrite !loop_body_skip by (left; exact Hw). reflexivity. }
  destruct (current_velocity s) as [cv |] eqn:Hv.
  2:{ rewrite !loop_body_skip by (right; exact Hv). reflexivity. }
  destruct (twist_cmd s) as [tw |] eqn:Ht.
  2:{ unfold loop_body. rewrite Hw, Hv, Ht. reflexivity. }
  destruct (Compute_CTE efq fit s) as [[cte he] | e] eqn:Hc.
  2:{ unfold loop_body. rewrite Hw, Hv, Ht, Hc. reflexivity. }
  destruct (control_call control tw cv cte (dbw_enabled s)) as [[th br] st] eqn:Hctl.
  destruct (Req_dec_T (wheel_radius s * vehicle_mass s) 0) as [Hz | Hz].
  - destruct (loop_body efq fit control time s) as [[s1 o1] | e1] eqn:H1.
    { destruct (loop_body_inv _ _ _ _ _ _ _ H1) as
        [(_ & _ & [Hn | Hn]) | (? & ? & ? & ? & ? & ? & ? & ? & _ & _ & _ & _ & _ & Hnz & _)];
        [congruence | congruence | contradiction]. }
    destruct (loop_body efq fit control time' s) as [[s2 o2] | e2] eqn:H2.
    { destruct (loop_body_inv _ _ _ _ _ _ _ H2) as
        [(_ & _ & [Hn | Hn]) | (? & ? & ? & ? & ? & ? & ? & ? & _ & _ & _ & _ & _ & Hnz & _)];
        [congruence | congruence | contradiction]. }
    reflexivity.
  - rewrite (loop_body_ready efq fit control time s _ _ _ _ _ _ _ _ Hw Hv Ht Hc Hctl Hz).
    rewrite (loop_body_ready efq fit control time' s _ _ _ _ _ _ _ _ Hw Hv Ht Hc Hctl Hz).
    cbn [publications_of published]. unfold publish.
    reflexivity.
Qed.

(** C9. When the clock has advanced by less than a millisecond since
    [prevtime], the loop body computes [accel_meas] with [dt = 0.1] and not
    with the measured difference; the publications of that loop body are
    those it makes for any other clock reading. *)
Theorem short_dt_replaced_in_diagnostics_only
  (efq : list R -> R * R * R) (fit : list R -> list R -> nat -> result (list R))
  (control : controller) (time : R) (s : DBWNode)
  (wpts : list Waypoint.t) (cv tw : Twist.t) (cte he throttle brake steering : R) :
  time - prevtime s < 1e-3 ->
  finalwpts s = Some wpts ->
  current_velocity s = Some cv ->
  twist_cmd s = Some tw ->
  Compute_CTE efq fit s = Ok (cte, he) ->
  control_call control tw cv cte (dbw_enabled s) = (throttle, brake, steering) ->
  wheel_radius s * vehicle_mass s <> 0 ->
  exists s' pubs decel_calc,
    loop_body efq fit control time s =
      Ok (s', mk_tick_obs pubs
                (Some (0.1,
                       (Vector3.x (Twist.linear cv) - current_velocity_new s) / 0.1,
                       decel_calc))) /\
    forall time',
      publications_of (loop_body efq fit control time' s) = pubs.
Proof.
  intros Hdt Hw Hv Ht Hc Hctl Hz.
  pose proof (loop_body_ready efq fit control time s _ _ _ _ _ _ _ _ Hw Hv Ht Hc Hctl Hz) as H.
  cbv zeta in H. rewrite (dt_used_floor _ _ Hdt) in H.
  eexists. eexists. eexists. split; [exact H |].
  intros time'.
  rewrite (publications_clock_free efq fit control s time' time), H.
  reflexivity.
Qed.

(** The node, enabled, half a millisecond after its previous tick. *)
Lemma short_dt_replaced_in_diagnostics_only_witness :
  0.0005 - prevtime (DBWEnabled_cb true (fed four_ahead)) < 1e-3 /\
  exists s' pubs decel_calc,
    loop_body efq_level fit_on_axis (constant_control 0.5 20 0.1) 0.0005
      (DBWEnabled_cb true (fed four_ahead)) =
      Ok (s', mk_tick_obs pubs
                (Some (0.1,
                       (Vector3.x (Twist.linear (twist_of 8 0))
                          - current_velocity_new (DBWEnabled_cb true (fed four_ahead))) / 0.1,
                       decel_calc))) /\
    forall time',
      publications_of
        (loop_body efq_level fit_on_axis (constant_control 0.5 20 0.1) time'
           (DBWEnabled_cb true (fed four_ahead))) = pubs.
Proof.
  assert (Hdt : 0.0005 - prevtime (DBWEnabled_cb true (fed four_ahead)) < 1e-3)
    by (cbn; lra).
  split; [exact Hdt |].
  exact (short_dt_replaced_in_diagnostics_only
           efq_level fit_on_axis (constant_control 0.5 20 0.1) 0.0005
           (DBWEnabled_cb true (fed four_ahead))
           four_ahead (twist_of 8 0) (twist_of 10 0) _ _ 0.5 20 0.1
           Hdt eq_refl eq_refl eq_refl
           (Compute_CTE_fed (wp 1 0) [wp 2 0; wp 3 0; wp 4 0])
           eq_refl default_radius_mass).
Defined.

(** ** The latch (C1, C2) *)

Section Latch.

Variable efq : list R -> R * R * R.
Variable fit : list R -> list R -> nat -> result (list R).

(** [Compute_CTE] reads the pose, the orientation and the path only. *)
Lemma Compute_CTE_after_tick s cte he brake clv time :
  Compute_CTE efq fit (after_tick s cte he brake clv time) = Compute_CTE efq fit s.
Proof. reflexivity. Qed.

(** No assignment to [throttle_prev] or [steer_prev] in the loop body. *)
Lemma loop_body_keeps_throttle_steer_prev control time s s' obs :
  loop_body efq fit control time s = Ok (s', obs) ->
  throttle_prev s' = throttle_prev s /\ steer_prev s' = steer_prev s.
Proof.
  intros H.
  destruct (loop_body_inv _ _ _ _ _ _ _ H) as
    [(-> & _) | (wpts & cv & tw & cte & he & th & br & st & _ & _ & _ & _ & _ & _ & -> & _)];
    split; reflexivity.
Qed.

(** Nor anywhere else: along a run the two fields keep their value. *)
Lemma run_keeps_throttle_steer_prev evs : forall s s',
  snd (run efq fit evs s) = Ok s' ->
  throttle_prev s' = throttle_prev s /\ steer_prev s' = steer_prev s.
Proof.
  induction evs as [| ev evs IH]; intros s s' H.
  - cbn [run snd] in H. inversion H; subst. split; reflexivity.
  - cbn [run] in H.
    destruct (step efq fit ev s) as [[s1 pubs] | e] eqn:Hs; [| discriminate H].
    assert (H1 : throttle_prev s1 = throttle_prev s /\ steer_prev s1 = steer_prev s).
    { destruct ev as [w | b | p | t | t | control time]; cbn [step] in Hs;
        try (inversion Hs; subst; split; reflexivity).
      destruct (loop_body efq fit control time s) as [[s2 obs] | e] eqn:Hb;
        [| discriminate Hs].
      cbn [bind] in Hs. inversion Hs; subst.
      exact (loop_body_keeps_throttle_steer_prev _ _ _ _ _ Hb). }
    destruct (run efq fit evs s1) as [rest r] eqn:Hr. cbn [snd] in H.
    specialize (IH s1 s'). rewrite Hr in IH. cbn [snd] in IH.
    destruct (IH H) as [IH1 IH2]. destruct H1 as [H1 H2].
    split; congruence.
Qed.

(** The calls of one [publish], channel by channel. *)
Lemma calls_publish s throttle brake steer :
  calls Throttle (publish s throttle brake steer)
    = (if Rneb (throttle_prev s) throttle then 1 else 0)%nat /\
  calls Steer (publish s throttle brake steer)
    = (if Rneb (steer_prev s) steer then 1 else 0)%nat /\
  calls Brake (publish s throttle brake steer)
    = (if Rneb (brake_prev s) brake then 1 else 0)%nat.
Proof.
  unfold publish, calls.
  destruct (Rneb (throttle_prev s) throttle), (Rneb (steer_prev s) steer),
    (Rneb (brake_prev s) brake); repeat split; reflexivity.
Qed.

Lemma calls_app ch l1 l2 : calls ch (l1 ++ l2) = (calls ch l1 + calls ch l2)%nat.
Proof. unfold calls. rewrite filter_app, length_app. reflexivity. Qed.

(** Two enabled loop bodies in a row on which the controller returns the
    same triple: the throttle and the steering publishers are called on
    both or on neither, since their values are compared with fields that
    never change; the brake publisher is not called on the second one. *)
Lemma same_triple_two_ticks c1 c2 t1 t2 s wpts cv tw cte he th br st :
  dbw_enabled s = true ->
  finalwpts s = Some wpts ->
  current_velocity s = Some cv ->
  twist_cmd s = Some tw ->
  Compute_CTE efq fit s = Ok (cte, he) ->
  control_call c1 tw cv cte true = (th, br, st) ->
  control_call c2 tw cv cte true = (th, br, st) ->
  wheel_radius s * vehicle_mass s <> 0 ->
  exists s1 o1 s2 o2,
    loop_body efq fit c1 t1 s = Ok (s1, o1) /\
    loop_body efq fit c2 t2 s1 = Ok (s2, o2) /\
    calls Throttle (published o1 ++ published o2)
      = (if Rneb (throttle_prev s) th then 2 else 0)%nat /\
    calls Steer (published o1 ++ published o2)
      = (if Rneb (steer_prev s) st then 2 else 0)%nat /\
    calls Brake (published o1 ++ published o2)
      = (if Rneb (brake_new s) br then 1 else 0)%nat /\
    throttle_prev s2 = throttle_prev s /\ steer_prev s2 = steer_prev s /\
    brake_prev s2 = br.
Proof.
  intros He Hw Hv Ht Hc Hc1 Hc2 Hz.
  rewrite <- He in Hc1.
  pose proof (loop_body_ready efq fit c1 t1 s _ _ _ _ _ _ _ _ Hw Hv Ht Hc Hc1 Hz) as H1.
  cbv zeta in H1. rewrite He in H1.
  set (s1 := after_tick s cte he br (Vector3.x (Twist.linear cv)) t1) in *.
  assert (Hc' : Compute_CTE efq fit s1 = Ok (cte, he))
    by (unfold s1; rewrite Compute_CTE_after_tick; exact Hc).
  assert (He1 : dbw_enabled s1 = true) by exact He.
  rewrite <- He1 in Hc2.
  pose proof (loop_body_ready efq fit c2 t2 s1 wpts cv tw cte he th br st
                Hw Hv Ht Hc' Hc2 Hz) as H2.
  cbv zeta in H2. rewrite He1 in H2.
  eexists. eexists. eexists. eexists.
  split; [exact H1 |]. split; [exact H2 |].
  cbn [published].
  rewrite !calls_app.
  destruct (calls_publish s1 th br st) as (-> & -> & ->).
  match goal with
  | |- context [publish ?s2 th br st] =>
      destruct (calls_publish s2 th br st) as (-> & -> & ->)
  end.
  cbn [after_tick throttle_prev steer_prev brake_prev brake_new s1].
  rewrite Rneb_same.
  destruct (Rneb (throttle_prev s) th), (Rneb (steer_prev s) st), (Rneb (brake_new s) br);
    repeat split; reflexivity.
Qed.

End Latch.

(** The node with all its data and the flag set. *)
Definition enabled (wpts : list Waypoint.t) : DBWNode := DBWEnabled_cb true (fed wpts).

(** C1, on the code. The controller returns (0.5, 20, 0.1) on two enabled
    loop bodies in a row: the throttle publisher and the steering publisher
    are each called twice, once per loop body; only the brake publisher is
    called once. *)
Theorem same_triple_twice_publishes_throttle_and_steer_twice :
  exists s1 o1 s2 o2,
    loop_body efq_level fit_on_axis (constant_control 0.5 20 0.1) 0.1 (enabled four_ahead)
      = Ok (s1, o1) /\
    loop_body efq_level fit_on_axis (constant_control 0.5 20 0.1) 0.2 s1 = Ok (s2, o2) /\
    calls Throttle (published o1 ++ published o2) = 2%nat /\
    calls Steer (published o1 ++ published o2) = 2%nat /\
    calls Brake (published o1 ++ published o2) = 1%nat.
Proof.
  destruct (same_triple_two_ticks efq_level fit_on_axis
              (constant_control 0.5 20 0.1) (constant_control 0.5 20 0.1) 0.1 0.2
              (enabled four_ahead) four_ahead (twist_of 8 0) (twist_of 10 0) _ _ 0.5 20 0.1
              eq_refl eq_refl eq_refl eq_refl
              (Compute_CTE_fed (wp 1 0) [wp 2 0; wp 3 0; wp 4 0])
              eq_refl eq_refl default_radius_mass)
    as (s1 & o1 & s2 & o2 & H1 & H2 & Ht & Hs & Hb & _).
  exists s1, o1, s2, o2.
  split; [exact H1 |]. split; [exact H2 |].
  rewrite Ht, Hs, Hb.
  cbn [enabled fed DBWEnabled_cb TwistCmd_cb CurrVel_cb CurrPose_cb finalwpts_cb
       set_dbw_enabled set_twist_cmd set_current_velocity set_current_orient
       set_current_pose set_finalwpts started init throttle_prev steer_prev brake_new].
  rewrite !Rneb_true by lra.
  repeat split; reflexivity.
Qed.

(** C2, on the code. After two enabled loop bodies on which the controller
    returned throttle 0.5 and steering 0.1, [throttle_prev] and [steer_prev]
    still hold the 0.0 of [__init__]; [brake_prev] holds the controller's
    brake. *)
Theorem throttle_prev_and_steer_prev_stay_zero :
  exists s1 o1 s2 o2,
    loop_body efq_level fit_on_axis (constant_control 0.5 20 0.1) 0.1 (enabled four_ahead)
      = Ok (s1, o1) /\
    loop_body efq_level fit_on_axis (constant_control 0.5 20 0.1) 0.2 s1 = Ok (s2, o2) /\
    throttle_prev s2 = 0 /\ steer_prev s2 = 0 /\ brake_prev s2 = 20.
Proof.
  destruct (same_triple_two_ticks efq_level fit_on_axis
              (constant_control 0.5 20 0.1) (constant_control 0.5 20 0.1) 0.1 0.2
              (enabled four_ahead) four_ahead (twist_of 8 0) (twist_of 10 0) _ _ 0.5 20 0.1
              eq_refl eq_refl eq_refl eq_refl
              (Compute_CTE_fed (wp 1 0) [wp 2 0; wp 3 0; wp 4 0])
              eq_refl eq_refl default_radius_mass)
    as (s1 & o1 & s2 & o2 & H1 & H2 & _ & _ & _ & Ht & Hs & Hb).
  exists s1, o1, s2, o2.
  split; [exact H1 |]. split; [exact H2 |].
  rewrite Ht, Hs, Hb.
  cbn [enabled fed DBWEnabled_cb TwistCmd_cb CurrVel_cb CurrPose_cb finalwpts_cb
       set_dbw_enabled set_twist_cmd set_current_velocity set_current_orient
       set_current_pose set_finalwpts started init throttle_prev steer_prev].
  repeat split; lra.
Qed.

(** ** Missing inputs (C4) *)

(** C4, on the code. The test of line 88 looks at the path and at the
    velocity only. Once these two have arrived, a loop body executed before
    the first message on [/twist_cmd] raises [AttributeError] on line 89,
    and one executed before the first message on [/current_pose] raises it
    on line 183; nothing catches it, so the run ends there. *)
Theorem tick_before_twist_cmd_or_pose_raises
  (efq : list R -> R * R * R) (fit : list R -> list R -> nat -> result (list R))
  (control : controller) (time : R)
  (wpts : list Waypoint.t) (velocity cmd : Twist.t) :
  run efq fit
    [final_waypoints wpts; current_velocity_msg velocity; tick control time] started
    = ([], Raise AttributeError) /\
  run efq fit
    [final_waypoints wpts; current_velocity_msg velocity; twist_cmd_msg cmd;
     tick control time] started
    = ([], Raise AttributeError).
Proof.
  split; reflexivity.
Qed.

(** ** Short paths (C3) *)

(** C3 as stated fails. The path has three waypoints, the node is enabled
    and the controller asks for (0.5, 20, 0.1): [Compute_CTE] returns a pair
    of numbers like on any other path, and the loop body calls all three
    publishers. *)
Lemma three_waypoints_are_fitted_and_published :
  length three_ahead = 3%nat /\
  Compute_CTE efq_level fit_on_axis (enabled three_ahead) = Ok (0, 0) /\
  publications_of
    (loop_body efq_level fit_on_axis (constant_control 0.5 20 0.1) 0.1
       (enabled three_ahead))
  = [ throttle_pub (ThrottleCmd.mk true CMD_PERCENT 0.5);
      steer_pub (SteeringCmd.mk true 0.1);
      brake_pub (BrakeCmd.mk true CMD_TORQUE 20) ].
Proof.
  assert (Hc : Compute_CTE efq_level fit_on_axis (enabled three_ahead) = Ok (0, 0)).
  { change (Compute_CTE efq_level fit_on_axis (enabled three_ahead))
      with (Compute_CTE efq_level fit_on_axis (fed three_ahead)).
    unfold three_ahead. rewrite Compute_CTE_fed.
    rewrite atan_0, !clamp_inside; [reflexivity | |];
      pose proof PI_RGT_0; split; lra. }
  split; [reflexivity |]. split; [exact Hc |].
  rewrite (loop_body_ready efq_level fit_on_axis (constant_control 0.5 20 0.1) 0.1
             (enabled three_ahead) three_ahead (twist_of 8 0) (twist_of 10 0)
             0 0 0.5 20 0.1 eq_refl eq_refl eq_refl Hc eq_refl default_radius_mass).
  cbn [publications_of published enabled DBWEnabled_cb set_dbw_enabled dbw_enabled].
  unfold publish.
  cbn [after_tick throttle_prev steer_prev brake_prev brake_new enabled fed
       DBWEnabled_cb TwistCmd_cb CurrVel_cb CurrPose_cb finalwpts_cb
       set_dbw_enabled set_twist_cmd set_current_velocity
       set_current_orient set_current_pose set_finalwpts started init].
  rewrite !Rneb_true by lra.
  reflexivity.
Qed.

(** C3, amended. [Compute_CTE] has no test on the waypoints it is given:
    whatever their number, the points go to [np.polyfit] and the outcome is
    the fit's. If the fit raises, the exception leaves [Compute_CTE] and
    the loop body as it is. If the fit returns coefficients [a; b; c; d],
    [Compute_CTE] returns the clamped [d] and the clamped [atan2 c 1.0], the
    controller is called with that CTE, and [publish] runs under the enable
    flag as on any other tick. *)
Theorem estimator_outcome_is_that_of_the_fit
  (efq : list R -> R * R * R) (fit : list R -> list R -> nat -> result (list R))
  (control : controller) (time : R) (s : DBWNode)
  (pos : Point.t) (orient : Quaternion.t) (wpts : list Waypoint.t) (cv tw : Twist.t) :
  current_pose s = Some pos ->
  current_orient s = Some orient ->
  finalwpts s = Some wpts ->
  current_velocity s = Some cv ->
  twist_cmd s = Some tw ->
  wheel_radius s * vehicle_mass s <> 0 ->
  (forall e,
      fit (map fst (body_points efq pos orient wpts))
          (map snd (body_points efq pos orient wpts)) 3%nat = Raise e ->
      Compute_CTE efq fit s = Raise e /\
      loop_body efq fit control time s = Raise e) /\
  (forall a b c d,
      fit (map fst (body_points efq pos orient wpts))
          (map snd (body_points efq pos orient wpts)) 3%nat = Ok [a; b; c; d] ->
      Compute_CTE efq fit s
        = Ok (clamp (-5) 5 d, clamp (- (PI / 2)) (PI / 2) (atan2 c 1.0)) /\
      exists s' obs throttle brake steering,
        loop_body efq fit control time s = Ok (s', obs) /\
        control_call control tw cv (clamp (-5) 5 d) (dbw_enabled s)
          = (throttle, brake, steering) /\
        published obs
          = if dbw_enabled s then publish s' throttle brake steering else []).
Proof.
  intros Hp Ho Hw Hv Ht Hz.
  pose proof (Compute_CTE_unfold efq fit s pos orient wpts Hp Ho Hw) as Hu.
  split.
  - intros e He. rewrite He in Hu. cbn [bind] in Hu.
    split; [exact Hu |].
    unfold loop_body. rewrite Hw, Hv, Ht, Hu. reflexivity.
  - intros a b c d Hf. rewrite Hf in Hu. cbn [bind] in Hu.
    rewrite from_coefficients_cubic in Hu. rewrite atan2_1.
    split; [exact Hu |].
    destruct (control_call control tw cv (clamp (-5) 5 d) (dbw_enabled s))
      as [[throttle brake] steering] eqn:Hctl.
    pose proof (loop_body_ready efq fit control time s _ _ _ _ _ _ _ _
                  Hw Hv Ht Hu Hctl Hz) as H.
    cbv zeta in H.
    eexists. eexists. exists throttle, brake, steering.
    split; [exact H |]. split; reflexivity.
Qed.

Lemma estimator_outcome_is_that_of_the_fit_witness :
  (forall e,
      fit_on_axis
        (map fst (body_points efq_level (Point.mk 0 0 0) q_level three_ahead))
        (map snd (body_points efq_level (Point.mk 0 0 0) q_level three_ahead)) 3%nat
        = Raise e ->
      Compute_CTE efq_level fit_on_axis (enabled three_ahead) = Raise e /\
      loop_body efq_level fit_on_axis (constant_control 0.5 20 0.1) 0.1
        (enabled three_ahead) = Raise e) /\
  (forall a b c d,
      fit_on_axis
        (map fst (body_points efq_level (Point.mk 0 0 0) q_level three_ahead))
        (map snd (body_points efq_level (Point.mk 0 0 0) q_level three_ahead)) 3%nat
        = Ok [a; b; c; d] ->
      Compute_CTE efq_level fit_on_axis (enabled three_ahead)
        = Ok (clamp (-5) 5 d, clamp (- (PI / 2)) (PI / 2) (atan2 c 1.0)) /\
      exists s' obs throttle brake steering,
        loop_body efq_level fit_on_axis (constant_control 0.5 20 0.1) 0.1
          (enabled three_ahead) = Ok (s', obs) /\
        control_call (constant_control 0.5 20 0.1) (twist_of 10 0) (twist_of 8 0)
          (clamp (-5) 5 d) (dbw_enabled (enabled three_ahead))
          = (throttle, brake, steering) /\
        published obs
          = if dbw_enabled (enabled three_ahead)
            then publish s' throttle brake steering else []).
Proof.
  exact (estimator_outcome_is_that_of_the_fit efq_level fit_on_axis
           (constant_control 0.5 20 0.1) 0.1 (enabled three_ahead)
           (Point.mk 0 0 0) q_level three_ahead (twist_of 8 0) (twist_of 10 0)
           eq_refl eq_refl eq_refl eq_refl eq_refl default_radius_mass).
Defined.

(** ** The local frame (C5) *)

(** The rotation of the plane by the angle [phi], counter-clockwise. *)
Definition rotate (phi : R) (p : R * R) : R * R :=
  (fst p * cos phi - snd p * sin phi, fst p * sin phi + snd p * cos phi).

(** The translation of the specification: the waypoint seen from the car. *)
Definition from_car (pos : Point.t) (wpt : Waypoint.t) : R * R :=
  (Point.x (Pose.position (Waypoint.pose wpt)) - Point.x pos,
   Point.y (Pose.position (Waypoint.pose wpt)) - Point.y pos).

(** The local frame in the specification's words: translate, then rotate by
    the negation of the corrected yaw, the corrected yaw being -1 times the
    extracted one. *)
Definition local_frame_as_specified (pos : Point.t) (extracted_yaw : R) (wpt : Waypoint.t)
  : R * R :=
  let corrected := -1 * extracted_yaw in
  rotate (- corrected) (from_car pos wpt).

(** [euler_from_quaternion] for a level car that heads along the world
    y-axis: its yaw is a quarter turn. *)
Definition efq_quarter_turn : list R -> R * R * R := fun _ => (0, 0, PI / 2).

Lemma sin_neg_PI2 : sin (-1 * (PI / 2)) = -1.
Proof.
  replace (-1 * (PI / 2)) with (- (PI / 2)) by lra.
  rewrite sin_neg, sin_PI2. reflexivity.
Qed.

Lemma cos_neg_PI2 : cos (-1 * (PI / 2)) = 0.
Proof.
  replace (-1 * (PI / 2)) with (- (PI / 2)) by lra.
  rewrite cos_neg, cos_PI2. reflexivity.
Qed.

(** C5 as stated fails. The car is at the origin with an extracted yaw of
    a quarter turn, the waypoint at (1, 0): the code puts it at (0, -1) in
    the local frame, the rotation by the negation of the corrected yaw at
    (0, 1). *)
Lemma quarter_turn_local_frame_differs :
  body_points efq_quarter_turn (Point.mk 0 0 0) q_level [wp 1 0] = [(0, -1)] /\
  map (local_frame_as_specified (Point.mk 0 0 0) (PI / 2)) [wp 1 0] = [(0, 1)] /\
  body_points efq_quarter_turn (Point.mk 0 0 0) q_level [wp 1 0]
    <> map (local_frame_as_specified (Point.mk 0 0 0) (PI / 2)) [wp 1 0].
Proof.
  assert (H1 : body_points efq_quarter_turn (Point.mk 0 0 0) q_level [wp 1 0] = [(0, -1)]).
  { unfold body_points, corrected_yaw, efq_quarter_turn, car_body, wp.
    cbn [map snd Point.x Point.y Pose.position Waypoint.pose].
    rewrite sin_neg_PI2, cos_neg_PI2. do 2 f_equal; lra. }
  assert (H2 : map (local_frame_as_specified (Point.mk 0 0 0) (PI / 2)) [wp 1 0] = [(0, 1)]).
  { unfold local_frame_as_specified, rotate, from_car, wp.
    cbn [map fst snd Point.x Point.y Pose.position Waypoint.pose].
    replace (- (-1 * (PI / 2))) with (PI / 2) by lra.
    rewrite sin_PI2, cos_PI2. do 2 f_equal; lra. }
  split; [exact H1 |]. split; [exact H2 |].
  rewrite H1, H2. intros H. inversion H. lra.
Qed.

(** C5, amended. For every waypoint of the path, the local-frame pair is
    the waypoint minus the position of the car, rotated by the corrected
    yaw itself, the corrected yaw being -1 times the yaw extracted from the
    quaternion; in terms of the extracted yaw [psi] this is
    [(dx cos psi + dy sin psi, - dx sin psi + dy cos psi)]. These pairs are
    what [Compute_CTE] hands to the fit. *)
Theorem local_frame_rotates_by_corrected_yaw
  (efq : list R -> R * R * R) (fit : list R -> list R -> nat -> result (list R))
  (s : DBWNode) (pos : Point.t) (orient : Quaternion.t) (wpts : list Waypoint.t) :
  current_pose s = Some pos ->
  current_orient s = Some orient ->
  finalwpts s = Some wpts ->
  let psi := snd (efq [Quaternion.x orient; Quaternion.y orient;
                       Quaternion.z orient; Quaternion.w orient]) in
  let local := map (fun wpt => rotate (-1 * psi) (from_car pos wpt)) wpts in
  Compute_CTE efq fit s
    = (coeff_3rd <- fit (map fst local) (map snd local) 3%nat ;;
       from_coefficients coeff_3rd) /\
  local = map (fun wpt =>
                 (fst (from_car pos wpt) * cos psi + snd (from_car pos wpt) * sin psi,
                  - fst (from_car pos wpt) * sin psi + snd (from_car pos wpt) * cos psi))
              wpts.
Proof.
  intros Hp Ho Hw psi local.
  split.
  - rewrite (Compute_CTE_unfold efq fit s pos orient wpts Hp Ho Hw).
    reflexivity.
  - unfold local. apply map_ext. intros wpt. unfold rotate. cbn [fst snd].
    replace (-1 * psi) with (- psi) by lra.
    rewrite sin_neg, cos_neg. f_equal; lra.
Qed.

Lemma local_frame_rotates_by_corrected_yaw_witness :
  let psi := snd (efq_quarter_turn [Quaternion.x q_level; Quaternion.y q_level;
                                    Quaternion.z q_level; Quaternion.w q_level]) in
  let local := map (fun wpt => rotate (-1 * psi) (from_car (Point.mk 0 0 0) wpt))
                   four_north in
  Compute_CTE efq_quarter_turn fit_on_axis (fed four_north)
    = (coeff_3rd <- fit_on_axis (map fst local) (map snd local) 3%nat ;;
       from_coefficients coeff_3rd) /\
  local = map (fun wpt =>
                 (fst (from_car (Point.mk 0 0 0) wpt) * cos psi
                    + snd (from_car (Point.mk 0 0 0) wpt) * sin psi,
                  - fst (from_car (Point.mk 0 0 0) wpt) * sin psi
                    + snd (from_car (Point.mk 0 0 0) wpt) * cos psi))
              four_north.
Proof.
  exact (local_frame_rotates_by_corrected_yaw efq_quarter_turn fit_on_axis
           (fed four_north) (Point.mk 0 0 0) q_level four_north
           eq_refl eq_refl eq_refl).
Defined.

(** ** The clamps (C6) *)

(** C6. When the fit returns the cubic [a; b; c; d], [Compute_CTE] returns
    as heading error [atan2 c 1.0] clamped to [-pi/2, pi/2] and as CTE the
    value of the polynomial at 0, which is [d], clamped to [-5, 5]; both
    returned values lie in these intervals. *)
Theorem Compute_CTE_clamps
  (efq : list R -> R * R * R) (fit : list R -> list R -> nat -> result (list R))
  (s : DBWNode) (pos : Point.t) (orient : Quaternion.t) (wpts : list Waypoint.t)
  (a b c d : R) :
  current_pose s = Some pos ->
  current_orient s = Some orient ->
  finalwpts s = Some wpts ->
  fit (map fst (body_points efq pos orient wpts))
      (map snd (body_points efq pos orient wpts)) 3%nat = Ok [a; b; c; d] ->
  exists cte he,
    Compute_CTE efq fit s = Ok (cte, he) /\
    he = clamp (- (PI / 2)) (PI / 2) (atan2 c 1.0) /\
    cte = clamp (-5.0) 5.0 (polyval [a; b; c; d] 0) /\
    polyval [a; b; c; d] 0 = d /\
    -5 <= cte <= 5 /\
    - (PI / 2) <= he <= PI / 2.
Proof.
  intros Hp Ho Hw Hf.
  rewrite (Compute_CTE_unfold efq fit s pos orient wpts Hp Ho Hw), Hf.
  cbn [bind]. rewrite from_coefficients_cubic.
  eexists. eexists. split; [reflexivity |].
  rewrite atan2_1, polyval_cubic.
  replace (a * 0 ^ 3 + b * 0 ^ 2 + c * 0 + d) with d by ring.
  split; [reflexivity |].
  split; [f_equal; lra |].
  split; [reflexivity |].
  split; [apply clamp_bounds; lra | apply clamp_bounds; apply PI2_bounds].
Qed.

(** A fit that returns a steep cubic far from the car, whatever the points. *)
Definition fit_steep : list R -> list R -> nat -> result (list R) :=
  fun _ _ _ => Ok [1; -2; 1000; 42].

Lemma Compute_CTE_clamps_witness :
  exists cte he,
    Compute_CTE efq_level fit_steep (fed four_ahead) = Ok (cte, he) /\
    he = clamp (- (PI / 2)) (PI / 2) (atan2 1000 1.0) /\
    cte = clamp (-5.0) 5.0 (polyval [1; -2; 1000; 42] 0) /\
    polyval [1; -2; 1000; 42] 0 = 42 /\
    -5 <= cte <= 5 /\
    - (PI / 2) <= he <= PI / 2.
Proof.
  exact (Compute_CTE_clamps efq_level fit_steep (fed four_ahead)
           (Point.mk 0 0 0) q_level four_ahead 1 (-2) 1000 42
           eq_refl eq_refl eq_refl eq_refl).
Defined.

(** ** A path on the local x-axis (C8) *)

(** What [np.polyfit] promises of the coefficients it returns for degree 3:
    no cubic has a smaller sum of squared residuals on the points. *)
Definition squared_error (p : list R) (pts : list (R * R)) : R :=
  fold_right (fun xy acc => (polyval p (fst xy) - snd xy) ^ 2 + acc) 0 pts.

Definition least_squares_cubic (pts : list (R * R)) (p : list R) : Prop :=
  forall a b c d, squared_error p pts <= squared_error [a; b; c; d] pts.

Lemma squared_error_nonneg p pts : 0 <= squared_error p pts.
Proof.
  induction pts as [| xy pts IH]; cbn [squared_error fold_right].
  - lra.
  - fold (squared_error p pts).
    pose proof (pow2_ge_0 (polyval p (fst xy) - snd xy)). lra.
Qed.

Lemma squared_error_zero_fits p pts :
  squared_error p pts = 0 -> Forall (fun xy => polyval p (fst xy) = snd xy) pts.
Proof.
  induction pts as [| xy pts IH]; cbn [squared_error fold_right]; intros H.
  - constructor.
  - fold (squared_error p pts) in H.
    pose proof (pow2_ge_0 (polyval p (fst xy) - snd xy)) as H1.
    pose proof (squared_error_nonneg p pts) as H2.
    constructor.
    + assert (Hz : (polyval p (fst xy) - snd xy) ^ 2 = 0) by lra.
      destruct (Req_dec_T (polyval p (fst xy) - snd xy) 0) as [E | E]; [lra |].
      exfalso. exact (pow_nonzero _ 2 E Hz).
    + apply IH. lra.
Qed.

Lemma squared_error_zero_cubic pts :
  Forall (fun xy => snd xy = 0) pts -> squared_error [0; 0; 0; 0] pts = 0.
Proof.
  induction 1 as [| xy pts Hxy _ IH]; cbn [squared_error fold_right].
  - reflexivity.
  - fold (squared_error [0; 0; 0; 0] pts).
    rewrite IH, polyval_cubic, Hxy. ring.
Qed.

(** A cubic with four distinct roots has slope 0 and value 0 at 0 (all its
    coefficients are 0). *)
Lemma cubic_four_roots (a b c d x1 x2 x3 x4 : R) :
  x1 <> x2 -> x2 <> x3 -> x3 <> x4 -> x1 <> x3 -> x2 <> x4 -> x1 <> x4 ->
  a * x1 ^ 3 + b * x1 ^ 2 + c * x1 + d = 0 ->
  a * x2 ^ 3 + b * x2 ^ 2 + c * x2 + d = 0 ->
  a * x3 ^ 3 + b * x3 ^ 2 + c * x3 + d = 0 ->
  a * x4 ^ 3 + b * x4 ^ 2 + c * x4 + d = 0 ->
  c = 0 /\ d = 0.
Proof.
  intros N12 N23 N34 N13 N24 N14 H1 H2 H3 H4.
  assert (Q12 : a * (x1 * x1 + x1 * x2 + x2 * x2) + b * (x1 + x2) + c = 0).
  { assert (E : (x1 - x2) * (a * (x1 * x1 + x1 * x2 + x2 * x2) + b * (x1 + x2) + c) = 0)
      by (ring_simplify; ring_simplify in H1; ring_simplify in H2; lra).
    apply Rmult_integral in E. destruct E as [E | E]; [lra | exact E]. }
  assert (Q23 : a * (x2 * x2 + x2 * x3 + x3 * x3) + b * (x2 + x3) + c = 0).
  { assert (E : (x2 - x3) * (a * (x2 * x2 + x2 * x3 + x3 * x3) + b * (x2 + x3) + c) = 0)
      by (ring_simplify; ring_simplify in H2; ring_simplify in H3; lra).
    apply Rmult_integral in E. destruct E as [E | E]; [lra | exact E]. }
  assert (Q34 : a * (x3 * x3 + x3 * x4 + x4 * x4) + b * (x3 + x4) + c = 0).
  { assert (E : (x3 - x4) * (a * (x3 * x3 + x3 * x4 + x4 * x4) + b * (x3 + x4) + c) = 0)
      by (ring_simplify; ring_simplify in H3; ring_simplify in H4; lra).
    apply Rmult_integral in E. destruct E as [E | E]; [lra | exact E]. }
  assert (R123 : a * (x1 + x2 + x3) + b = 0).
  { assert (E : (x1 - x3) * (a * (x1 + x2 + x3) + b) = 0)
      by (ring_simplify; ring_simplify in Q12; ring_simplify in Q23; lra).
    apply Rmult_integral in E. destruct E as [E | E]; [lra | exact E]. }
  assert (R234 : a * (x2 + x3 + x4) + b = 0).
  { assert (E : (x2 - x4) * (a * (x2 + x3 + x4) + b) = 0)
      by (ring_simplify; ring_simplify in Q23; ring_simplify in Q34; lra).
    apply Rmult_integral in E. destruct E as [E | E]; [lra | exact E]. }
  assert (A : a = 0).
  { assert (E : (x1 - x4) * a = 0)
      by (ring_simplify; ring_simplify in R123; ring_simplify in R234; lra).
    apply Rmult_integral in E. destruct E as [E | E]; [lra | exact E]. }
  subst a.
  assert (B : b = 0) by lra.
  subst b.
  assert (C : c = 0) by lra.
  subst c.
  split; [reflexivity | lra].
Qed.

(** C8. The path has at least four waypoints, all with [y = 0] in the local
    frame and with distinct local [x]; the fit returns a cubic that
    minimises the squared error on these points. Then [Compute_CTE] returns
    CTE 0 and heading error 0. *)
Theorem path_on_local_x_axis_gives_zero
  (efq : list R -> R * R * R) (fit : list R -> list R -> nat -> result (list R))
  (s : DBWNode) (pos : Point.t) (orient : Quaternion.t) (wpts : list Waypoint.t)
  (a b c d : R) :
  current_pose s = Some pos ->
  current_orient s = Some orient ->
  finalwpts s = Some wpts ->
  (4 <= length wpts)%nat ->
  Forall (fun xy => snd xy = 0) (body_points efq pos orient wpts) ->
  NoDup (map fst (body_points efq pos orient wpts)) ->
  fit (map fst (body_points efq pos orient wpts))
      (map snd (body_points efq pos orient wpts)) 3%nat = Ok [a; b; c; d] ->
  least_squares_cubic (body_points efq pos orient wpts) [a; b; c; d] ->
  Compute_CTE efq fit s = Ok (0, 0).
Proof.
  intros Hp Ho Hw Hlen Hy Hx Hf Hls.
  rewrite (Compute_CTE_unfold efq fit s pos orient wpts Hp Ho Hw), Hf.
  cbn [bind]. rewrite from_coefficients_cubic.
  assert (Hfit : Forall (fun xy => polyval [a; b; c; d] (fst xy) = snd xy)
                   (body_points efq pos orient wpts)).
  { apply squared_error_zero_fits.
    pose proof (Hls 0 0 0 0) as H0.
    rewrite (squared_error_zero_cubic _ Hy) in H0.
    pose proof (squared_error_nonneg [a; b; c; d] (body_points efq pos orient wpts)).
    lra. }
  assert (Hlen' : (4 <= length (body_points efq pos orient wpts))%nat)
    by (unfold body_points; rewrite length_map; exact Hlen).
  destruct (body_points efq pos orient wpts) as [| [x1 y1] [| [x2 y2] [| [x3 y3] [| [x4 y4] rest]]]];
    cbn [length] in Hlen';
    try (exfalso; repeat apply le_S_n in Hlen'; inversion Hlen'; fail).
  cbn [map fst] in Hx.
  inversion Hx as [| ? ? Hn1 Hx1]; subst.
  inversion Hx1 as [| ? ? Hn2 Hx2]; subst.
  inversion Hx2 as [| ? ? Hn3 Hx3]; subst.
  cbn [In] in Hn1, Hn2, Hn3.
  inversion Hy as [| ? ? Hy1 Hy']; subst.
  inversion Hy' as [| ? ? Hy2 Hy'']; subst.
  inversion Hy'' as [| ? ? Hy3 Hy''']; subst.
  inversion Hy''' as [| ? ? Hy4 _]; subst.
  inversion Hfit as [| ? ? Hf1 Hfit']; subst.
  inversion Hfit' as [| ? ? Hf2 Hfit'']; subst.
  inversion Hfit'' as [| ? ? Hf3 Hfit''']; subst.
  inversion Hfit''' as [| ? ? Hf4 _]; subst.
  cbn [fst snd] in *.
  rewrite polyval_cubic in Hf1, Hf2, Hf3, Hf4.
  destruct (cubic_four_roots a b c d x1 x2 x3 x4) as [-> ->]; [lra .. |].
  rewrite atan_0, !clamp_inside; [reflexivity | |];
    pose proof PI_RGT_0; split; lra.
Qed.

Lemma car_body_level (x : R) : car_body 0 0 (-1 * 0) (wp x 0) = (x, 0).
Proof.
  unfold car_body, wp. cbn [Point.x Point.y Pose.position Waypoint.pose].
  replace (-1 * 0) with 0 by lra. rewrite sin_0, cos_0. f_equal; lra.
Qed.

Lemma body_points_four_ahead :
  body_points efq_level (Point.mk 0 0 0) q_level four_ahead
    = [(1, 0); (2, 0); (3, 0); (4, 0)].
Proof.
  unfold body_points, corrected_yaw, efq_level, four_ahead.
  cbn [map snd Point.x Point.y].
  rewrite !car_body_level. reflexivity.
Qed.

Lemma four_ahead_on_axis :
  Forall (fun xy => snd xy = 0) (body_points efq_level (Point.mk 0 0 0) q_level four_ahead).
Proof. rewrite body_points_four_ahead. repeat constructor. Qed.

Lemma four_ahead_distinct :
  NoDup (map fst (body_points efq_level (Point.mk 0 0 0) q_level four_ahead)).
Proof.
  rewrite body_points_four_ahead. cbn [map fst].
  repeat constructor; cbn [In]; intros H; lra.
Qed.

Lemma four_ahead_fit :
  fit_on_axis (map fst (body_points efq_level (Point.mk 0 0 0) q_level four_ahead))
              (map snd (body_points efq_level (Point.mk 0 0 0) q_level four_ahead)) 3%nat
    = Ok [0; 0; 0; 0].
Proof. rewrite body_points_four_ahead. reflexivity. Qed.

Lemma four_ahead_least_squares :
  least_squares_cubic (body_points efq_level (Point.mk 0 0 0) q_level four_ahead)
    [0; 0; 0; 0].
Proof.
  intros a b c d.
  rewrite (squared_error_zero_cubic _ four_ahead_on_axis).
  apply squared_error_nonneg.
Qed.

Lemma path_on_local_x_axis_gives_zero_witness :
  Compute_CTE efq_level fit_on_axis (fed four_ahead) = Ok (0, 0).
Proof.
  exact (path_on_local_x_axis_gives_zero efq_level fit_on_axis (fed four_ahead)
           (Point.mk 0 0 0) q_level four_ahead 0 0 0 0
           eq_refl eq_refl eq_refl (le_n 4)
           four_ahead_on_axis four_ahead_distinct four_ahead_fit
           four_ahead_least_squares).
Defined.

(** * Further properties of the node *)

(** ** The estimator, whatever the fit returns *)

Lemma polyval_fold_0 (p : list R) : forall acc,
  fold_left (fun acc c => acc * 0 + c) p acc = last p acc.
Proof.
  induction p as [| c p IH]; intros acc; [reflexivity |].
  cbn [fold_left]. rewrite IH.
  destruct p as [| c' p]; [cbn [last]; ring |].
  clear IH. revert c'. induction p as [| c'' p IHp]; intros c'; [reflexivity |].
  change (last (c' :: c'' :: p) (acc * 0 + c)) with (last (c'' :: p) (acc * 0 + c)).
  change (last (c :: c' :: c'' :: p) acc) with (last (c :: c'' :: p) acc).
  apply IHp.
Qed.

(** [np.polyval(p, 0.0)] is the last coefficient. *)
Lemma polyval_at_0 (p : list R) : polyval p 0.0 = last p 0.
Proof.
  unfold polyval. replace 0.0 with 0 by lra. apply polyval_fold_0.
Qed.

Lemma atan_in_PI2 (v : R) : - (PI / 2) <= atan v <= PI / 2.
Proof. pose proof (atan_bound v) as [H1 H2]. split; lra. Qed.

Section EstimatorAnyFit.

Variable efq : list R -> R * R * R.
Variable fit : list R -> list R -> nat -> result (list R).

Lemma from_coefficients_any (coeffs : list R) (slope : R) :
  nth_error coeffs 2 = Some slope ->
  from_coefficients coeffs = Ok (clamp (-5) 5 (last coeffs 0), atan slope).
Proof.
  intros Hn. unfold from_coefficients, index. rewrite Hn. cbn [bind].
  rewrite polyval_at_0, atan2_1.
  rewrite !clamp_ifs_clamp by (try apply PI2_bounds; lra).
  rewrite (clamp_inside _ _ _ (atan_in_PI2 slope)).
  do 2 f_equal. f_equal; lra.
Qed.

(** What a returning [Compute_CTE] has gone through. *)
Lemma Compute_CTE_inv (s : DBWNode) (cte he : R) :
  Compute_CTE efq fit s = Ok (cte, he) ->
  exists pos orient wpts coeffs slope,
    current_pose s = Some pos /\ current_orient s = Some orient /\
    finalwpts s = Some wpts /\
    fit (map fst (body_points efq pos orient wpts))
        (map snd (body_points efq pos orient wpts)) 3%nat = Ok coeffs /\
    nth_error coeffs 2 = Some slope /\
    cte = clamp (-5) 5 (last coeffs 0) /\ he = atan slope.
Proof.
  intros H.
  destruct (current_pose s) as [pos |] eqn:Hp;
    [| unfold Compute_CTE in H; rewrite Hp in H; discriminate H].
  destruct (current_orient s) as [orient |] eqn:Ho;
    [| unfold Compute_CTE in H; rewrite Hp, Ho in H; discriminate H].
  destruct (finalwpts s) as [wpts |] eqn:Hw.
  2:{ unfold Compute_CTE in H. rewrite Hp, Ho, Hw in H. cbn [attr bind] in H.
      destruct (efq _) as [[? ?] ?]. discriminate H. }
  rewrite (Compute_CTE_unfold efq fit s pos orient wpts Hp Ho Hw) in H.
  destruct (fit _ _ _) as [coeffs | e] eqn:Hf; [| discriminate H].
  cbn [bind] in H.
  destruct (nth_error coeffs 2) as [slope |] eqn:Hn.
  2:{ unfold from_coefficients, index in H. rewrite Hn in H. discriminate H. }
  rewrite (from_coefficients_any coeffs slope Hn) in H. inversion H; subst.
  exists pos, orient, wpts, coeffs, slope. repeat split; auto.
Qed.

End EstimatorAnyFit.


Lemma Compute_CTE_steep :
  Compute_CTE efq_level fit_steep (fed four_ahead) = Ok (clamp (-5) 5 42, atan 1000).
Proof.
  rewrite (Compute_CTE_unfold efq_level fit_steep (fed four_ahead)
             (Point.mk 0 0 0) q_level four_ahead eq_refl eq_refl eq_refl).
  unfold fit_steep. cbn [bind].
  apply (from_coefficients_any [1; -2; 1000; 42] 1000). reflexivity.
Qed.


(** X2. The clamp of the heading error never changes it: with the inputs
    there and the fit returning coefficients whose third entry is [slope],
    [Compute_CTE] returns exactly [atan slope] as heading error, and as CTE
    the last coefficient clamped to [-5, 5]. *)
Theorem heading_error_is_atan_of_slope
  (efq : list R -> R * R * R) (fit : list R -> list R -> nat -> result (list R))
  (s : DBWNode) (pos : Point.t) (orient : Quaternion.t) (wpts : list Waypoint.t)
  (coeffs : list R) (slope : R) :
  current_pose s = Some pos ->
  current_orient s = Some orient ->
  finalwpts s = Some wpts ->
  fit (map fst (body_points efq pos orient wpts))
      (map snd (body_points efq pos orient wpts)) 3%nat = Ok coeffs ->
  nth_error coeffs 2 = Some slope ->
  Compute_CTE efq fit s = Ok (clamp (-5) 5 (last coeffs 0), atan slope).
Proof.
  intros Hp Ho Hw Hf Hn.
  rewrite (Compute_CTE_unfold efq fit s pos orient wpts Hp Ho Hw), Hf.
  cbn [bind]. apply from_coefficients_any. exact Hn.
Qed.

Lemma heading_error_is_atan_of_slope_witness :
  Compute_CTE efq_level fit_steep (fed four_ahead)
    = Ok (clamp (-5) 5 (last [1; -2; 1000; 42] 0), atan 1000).
Proof.
  exact (heading_error_is_atan_of_slope efq_level fit_steep (fed four_ahead)
           (Point.mk 0 0 0) q_level four_ahead [1; -2; 1000; 42] 1000
           eq_refl eq_refl eq_refl eq_refl eq_refl).
Defined.

(** ** The change of frame *)

(** X3. The change of frame of lines 193-197 keeps lengths, whatever the
    yaw: a waypoint is as far from the origin of the car body frame as it is
    from the car in the world, and two waypoints are as far from each other
    in the car body frame as in the world (distances squared). *)
Theorem car_body_keeps_distances (gx gy yaw : R) (w1 w2 : Waypoint.t) :
  (fst (car_body gx gy yaw w1)) ^ 2 + (snd (car_body gx gy yaw w1)) ^ 2
    = (Point.x (Pose.position (Waypoint.pose w1)) - gx) ^ 2
      + (Point.y (Pose.position (Waypoint.pose w1)) - gy) ^ 2
  /\
  (fst (car_body gx gy yaw w1) - fst (car_body gx gy yaw w2)) ^ 2
    + (snd (car_body gx gy yaw w1) - snd (car_body gx gy yaw w2)) ^ 2
    = (Point.x (Pose.position (Waypoint.pose w1))
         - Point.x (Pose.position (Waypoint.pose w2))) ^ 2
      + (Point.y (Pose.position (Waypoint.pose w1))
           - Point.y (Pose.position (Waypoint.pose w2))) ^ 2.
Proof.
  unfold car_body. cbn [fst snd].
  pose proof (sin2_cos2 yaw) as Hsc. unfold Rsqr in Hsc.
  set (sy := sin yaw) in *. set (cy := cos yaw) in *.
  set (x1 := Point.x (Pose.position (Waypoint.pose w1))).
  set (y1 := Point.y (Pose.position (Waypoint.pose w1))).
  set (x2 := Point.x (Pose.position (Waypoint.pose w2))).
  set (y2 := Point.y (Pose.position (Waypoint.pose w2))).
  split.
  - replace (((x1 - gx) * cy - (y1 - gy) * sy) ^ 2 + ((x1 - gx) * sy + (y1 - gy) * cy) ^ 2)
      with (((x1 - gx) ^ 2 + (y1 - gy) ^ 2) * (sy * sy + cy * cy)) by ring.
    rewrite Hsc. ring.
  - replace (((x1 - gx) * cy - (y1 - gy) * sy - ((x2 - gx) * cy - (y2 - gy) * sy)) ^ 2
             + ((x1 - gx) * sy + (y1 - gy) * cy - ((x2 - gx) * sy + (y2 - gy) * cy)) ^ 2)
      with (((x1 - x2) ^ 2 + (y1 - y2) ^ 2) * (sy * sy + cy * cy)) by ring.
    rewrite Hsc. ring.
Qed.

(** The same displacement applied to a point of the world. *)
Definition shift_point (tx ty : R) (p : Point.t) : Point.t :=
  Point.mk (Point.x p + tx) (Point.y p + ty) (Point.z p).

Definition shift_waypoint (tx ty : R) (w : Waypoint.t) : Waypoint.t :=
  Waypoint.mk (Pose.mk (shift_point tx ty (Pose.position (Waypoint.pose w)))
                       (Pose.orientation (Waypoint.pose w))).

Lemma car_body_shift (tx ty gx gy yaw : R) (w : Waypoint.t) :
  car_body (gx + tx) (gy + ty) yaw (shift_waypoint tx ty w) = car_body gx gy yaw w.
Proof.
  unfold car_body, shift_waypoint, shift_point.
  cbn [Waypoint.pose Pose.position Point.x Point.y].
  f_equal; ring.
Qed.

(** X4. The estimator sees the path relative to the car only: moving the
    car and every waypoint by the same displacement of the world, with the
    same orientation, leaves the outcome of [Compute_CTE] unchanged. *)
Theorem Compute_CTE_translation_invariant
  (efq : list R -> R * R * R) (fit : list R -> list R -> nat -> result (list R))
  (tx ty : R) (s1 s2 : DBWNode)
  (pos : Point.t) (orient : Quaternion.t) (wpts : list Waypoint.t) :
  current_pose s1 = Some pos ->
  current_orient s1 = Some orient ->
  finalwpts s1 = Some wpts ->
  current_pose s2 = Some (shift_point tx ty pos) ->
  current_orient s2 = Some orient ->
  finalwpts s2 = Some (map (shift_waypoint tx ty) wpts) ->
  Compute_CTE efq fit s2 = Compute_CTE efq fit s1.
Proof.
  intros Hp1 Ho1 Hw1 Hp2 Ho2 Hw2.
  rewrite (Compute_CTE_unfold efq fit s1 pos orient wpts Hp1 Ho1 Hw1).
  rewrite (Compute_CTE_unfold efq fit s2 _ orient _ Hp2 Ho2 Hw2).
  assert (E : body_points efq (shift_point tx ty pos) orient (map (shift_waypoint tx ty) wpts)
              = body_points efq pos orient wpts).
  { unfold body_points. rewrite map_map. apply map_ext. intros w.
    unfold shift_point at 1 2. cbn [Point.x Point.y].
    apply car_body_shift. }
  rewrite E. reflexivity.
Qed.

(** The car and the four waypoints moved by (100, -50). *)
Lemma Compute_CTE_translation_invariant_witness :
  Compute_CTE efq_level fit_on_axis
    (finalwpts_cb (map (shift_waypoint 100 (-50)) four_ahead)
       (CurrPose_cb (Pose.mk (shift_point 100 (-50) (Point.mk 0 0 0)) q_level) started))
  = Compute_CTE efq_level fit_on_axis (fed four_ahead).
Proof.
  exact (Compute_CTE_translation_invariant efq_level fit_on_axis 100 (-50)
           (fed four_ahead)
           (finalwpts_cb (map (shift_waypoint 100 (-50)) four_ahead)
              (CurrPose_cb (Pose.mk (shift_point 100 (-50) (Point.mk 0 0 0)) q_level)
                 started))
           (Point.mk 0 0 0) q_level four_ahead
           eq_refl eq_refl eq_refl eq_refl eq_refl eq_refl).
Defined.

(** ** One execution of the loop body *)

Section TickFacts.

Variable efq : list R -> R * R * R.
Variable fit : list R -> list R -> nat -> result (list R).

(** A wheel radius or a mass of zero: line 127 divides by zero. *)
Lemma loop_body_zero_product control time s wpts cv tw cte he :
  finalwpts s = Some wpts ->
  current_velocity s = Some cv ->
  twist_cmd s = Some tw ->
  Compute_CTE efq fit s = Ok (cte, he) ->
  wheel_radius s * vehicle_mass s = 0 ->
  loop_body efq fit control time s = Raise ZeroDivisionError.
Proof.
  intros Hw Hv Ht Hc Hz.
  unfold loop_body.
  rewrite Hw, Hv, Ht, Hc. cbn [is_not_None andb attr bind].
  cbn [CTE dbw_enabled set_heading_err set_CTE].
  destruct (control _ _ _ _ _ _ _) as [[throttle brake] steering].
  cbn [set_brake_prev set_brake_new set_current_velocity_prev set_current_velocity_new
       set_prevtime set_heading_err set_CTE
       vehicle_mass wheel_radius dbw_enabled current_velocity finalwpts current_pose
       current_orient twist_cmd CTE heading_err throttle_prev steer_prev brake_prev
       brake_new current_velocity_prev current_velocity_new prevtime].
  fold (dt_used time (prevtime s)).
  rewrite pydiv_ok by apply dt_used_nonzero.
  cbn [bind]. unfold pydiv.
  destruct (Req_dec_T (wheel_radius s * vehicle_mass s) 0); [reflexivity | contradiction].
Qed.

Lemma loop_body_no_twist control time s wpts cv :
  finalwpts s = Some wpts ->
  current_velocity s = Some cv ->
  twist_cmd s = None ->
  loop_body efq fit control time s = Raise AttributeError.
Proof. intros Hw Hv Ht. unfold loop_body. rewrite Hw, Hv, Ht. reflexivity. Qed.

Lemma loop_body_estimator_raises control time s wpts cv tw e :
  finalwpts s = Some wpts ->
  current_velocity s = Some cv ->
  twist_cmd s = Some tw ->
  Compute_CTE efq fit s = Raise e ->
  loop_body efq fit control time s = Raise e.
Proof. intros Hw Hv Ht Hc. unfold loop_body. rewrite Hw, Hv, Ht, Hc. reflexivity. Qed.

Lemma calls_publish_le_1 ch s throttle brake steer :
  (calls ch (publish s throttle brake steer) <= 1)%nat.
Proof.
  destruct (calls_publish s throttle brake steer) as (H1 & H2 & H3).
  destruct ch; [rewrite H1 | rewrite H2 | rewrite H3];
    match goal with |- context [Rneb ?a ?b] => destruct (Rneb a b) end;
    auto.
Qed.

End TickFacts.

(** X5. The loop body raises in three cases only, all of them with the path
    and the velocity there: the twist command is [None] ([AttributeError]),
    [Compute_CTE] raises (the same exception), or the wheel radius times the
    vehicle mass is zero ([ZeroDivisionError] on line 127). The division by
    [dt] never raises. *)
Theorem loop_body_raises_iff
  (efq : list R -> R * R * R) (fit : list R -> list R -> nat -> result (list R))
  (control : controller) (time : R) (s : DBWNode) (e : exn) :
  loop_body efq fit control time s = Raise e <->
  finalwpts s <> None /\ current_velocity s <> None /\
  ((twist_cmd s = None /\ e = AttributeError)
   \/ (twist_cmd s <> None /\ Compute_CTE efq fit s = Raise e)
   \/ (twist_cmd s <> None /\ (exists cte he, Compute_CTE efq fit s = Ok (cte, he)) /\
       wheel_radius s * vehicle_mass s = 0 /\ e = ZeroDivisionError)).
Proof.
  split.
  - intros H.
    destruct (finalwpts s) as [wpts |] eqn:Hw.
    2:{ rewrite loop_body_skip in H by (left; exact Hw). discriminate H. }
    destruct (current_velocity s) as [cv |] eqn:Hv.
    2:{ rewrite loop_body_skip in H by (right; exact Hv). discriminate H. }
    split; [discriminate |]. split; [discriminate |].
    destruct (twist_cmd s) as [tw |] eqn:Ht.
    2:{ rewrite (loop_body_no_twist efq fit control time s wpts cv Hw Hv Ht) in H.
        inversion H. left. split; reflexivity. }
    right.
    destruct (Compute_CTE efq fit s) as [[cte he] | e'] eqn:Hc.
    2:{ rewrite (loop_body_estimator_raises efq fit control time s wpts cv tw e' Hw Hv Ht Hc)
          in H.
        inversion H; subst. left. split; [discriminate | reflexivity]. }
    right.
    destruct (Req_dec_T (wheel_radius s * vehicle_mass s) 0) as [Hz | Hz].
    + rewrite (loop_body_zero_product efq fit control time s wpts cv tw cte he
                 Hw Hv Ht Hc Hz) in H.
      inversion H; subst.
      split; [discriminate |]. split; [exists cte, he; reflexivity |].
      split; [exact Hz | reflexivity].
    + destruct (control_call control tw cv cte (dbw_enabled s)) as [[th br] st] eqn:Hctl.
      rewrite (loop_body_ready efq fit control time s wpts cv tw cte he th br st
                 Hw Hv Ht Hc Hctl Hz) in H.
      discriminate H.
  - intros (Hw & Hv & H).
    destruct (finalwpts s) as [wpts |] eqn:Hw'; [| contradiction].
    destruct (current_velocity s) as [cv |] eqn:Hv'; [| contradiction].
    destruct H as [(Ht & ->) | [(Ht & Hc) | (Ht & (cte & he & Hc) & Hz & ->)]].
    + apply (loop_body_no_twist efq fit control time s wpts cv Hw' Hv' Ht).
    + destruct (twist_cmd s) as [tw |] eqn:Ht'; [| contradiction].
      apply (loop_body_estimator_raises efq fit control time s wpts cv tw e Hw' Hv' Ht' Hc).
    + destruct (twist_cmd s) as [tw |] eqn:Ht'; [| contradiction].
      apply (loop_body_zero_product efq fit control time s wpts cv tw cte he
               Hw' Hv' Ht' Hc Hz).
Qed.

(** X6. One execution of the loop body calls each of the three publishers at
    most once, however it ends. *)
Theorem tick_calls_each_publisher_at_most_once
  (efq : list R -> R * R * R) (fit : list R -> list R -> nat -> result (list R))
  (control : controller) (time : R) (s : DBWNode) (ch : channel) :
  (calls ch (publications_of (loop_body efq fit control time s)) <= 1)%nat.
Proof.
  destruct (loop_body efq fit control time s) as [[s' obs] | e] eqn:H;
    cbn [publications_of]; [| apply Nat.le_0_l].
  destruct (loop_body_inv _ _ _ _ _ _ _ H) as
    [(_ & -> & _) | (wpts & cv & tw & cte & he & th & br & st & _ & _ & _ & _ & _ & _ & _ & ->)];
    cbn [published]; [apply Nat.le_0_l |].
  destruct (dbw_enabled s); [apply calls_publish_le_1 | apply Nat.le_0_l].
Qed.

Lemma loop_body_keeps_inputs
  (efq : list R -> R * R * R) (fit : list R -> list R -> nat -> result (list R))
  (control : controller) (time : R) (s s' : DBWNode) (obs : tick_obs) :
  loop_body efq fit control time s = Ok (s', obs) ->
  finalwpts s' = finalwpts s /\
  current_pose s' = current_pose s /\
  current_orient s' = current_orient s /\
  current_velocity s' = current_velocity s /\
  twist_cmd s' = twist_cmd s /\
  dbw_enabled s' = dbw_enabled s /\
  vehicle_mass s' = vehicle_mass s /\
  wheel_radius s' = wheel_radius s.
Proof.
  intros H.
  destruct (loop_body_inv _ _ _ _ _ _ _ H) as
    [(-> & _) | (wpts & cv & tw & cte & he & th & br & st & _ & _ & _ & _ & _ & _ & -> & _)];
    repeat split; reflexivity.
Qed.

(** X7. The loop body reads the inputs and never writes them: after an
    execution that returns, the path, the pose, the orientation, the
    velocity, the twist command, the enable flag, the mass and the wheel
    radius are what they were. *)
Theorem tick_keeps_inputs
  (efq : list R -> R * R * R) (fit : list R -> list R -> nat -> result (list R))
  (control : controller) (time : R) (s s' : DBWNode) (obs : tick_obs) :
  loop_body efq fit control time s = Ok (s', obs) ->
  finalwpts s' = finalwpts s /\
  current_pose s' = current_pose s /\
  current_orient s' = current_orient s /\
  current_velocity s' = current_velocity s /\
  twist_cmd s' = twist_cmd s /\
  dbw_enabled s' = dbw_enabled s /\
  vehicle_mass s' = vehicle_mass s /\
  wheel_radius s' = wheel_radius s.
Proof.
  intros H.
  destruct (loop_body_inv _ _ _ _ _ _ _ H) as
    [(-> & _) | (wpts & cv & tw & cte & he & th & br & st & _ & _ & _ & _ & _ & _ & -> & _)];
    repeat split; reflexivity.
Qed.

Lemma loop_body_enabled_four_ahead :
  loop_body efq_level fit_on_axis (constant_control 0.5 20 0.1) 0.1 (enabled four_ahead)
  = Ok (after_tick (enabled four_ahead) (clamp (-5) 5 0) (clamp (- (PI / 2)) (PI / 2) (atan 0))
          20 8 0.1,
        mk_tick_obs
          (publish (after_tick (enabled four_ahead) (clamp (-5) 5 0)
                      (clamp (- (PI / 2)) (PI / 2) (atan 0)) 20 8 0.1) 0.5 20 0.1)
          (Some (dt_used 0.1 0,
                 (8 - 0.0) / dt_used 0.1 0,
                 - 0.0 / (0.2413 * 1736.35)))).
Proof.
  exact (loop_body_ready efq_level fit_on_axis (constant_control 0.5 20 0.1) 0.1
           (enabled four_ahead) four_ahead (twist_of 8 0) (twist_of 10 0) _ _ 0.5 20 0.1
           eq_refl eq_refl eq_refl
           (Compute_CTE_fed (wp 1 0) [wp 2 0; wp 3 0; wp 4 0])
           eq_refl default_radius_mass).
Qed.

Lemma tick_keeps_inputs_witness :
  finalwpts (after_tick (enabled four_ahead) (clamp (-5) 5 0)
               (clamp (- (PI / 2)) (PI / 2) (atan 0)) 20 8 0.1) = Some four_ahead /\
  dbw_enabled (after_tick (enabled four_ahead) (clamp (-5) 5 0)
                 (clamp (- (PI / 2)) (PI / 2) (atan 0)) 20 8 0.1) = true.
Proof.
  destruct (tick_keeps_inputs efq_level fit_on_axis (constant_control 0.5 20 0.1) 0.1
              (enabled four_ahead) _ _ loop_body_enabled_four_ahead)
    as (H1 & _ & _ & _ & _ & H6 & _).
  split; [exact H1 | exact H6].
Defined.

(** X8. The [dt] the diagnostics are computed with is never below one
    millisecond, also when the clock has not moved or has gone backwards:
    it is the measured difference when that is at least 1e-3 and 0.1
    otherwise, [accel_meas] is the change of the measured velocity divided
    by it, and [decel_calc] is minus the brake of the previous executed loop
    body divided by wheel radius times mass. *)
Theorem diagnostics_of_a_tick
  (efq : list R -> R * R * R) (fit : list R -> list R -> nat -> result (list R))
  (control : controller) (time : R) (s s' : DBWNode) (obs : tick_obs)
  (dt accel_meas decel_calc : R) :
  loop_body efq fit control time s = Ok (s', obs) ->
  diagnostics obs = Some (dt, accel_meas, decel_calc) ->
  1e-3 <= dt /\
  ((1e-3 <= time - prevtime s /\ dt = time - prevtime s)
   \/ (time - prevtime s < 1e-3 /\ dt = 0.1)) /\
  (exists cv, current_velocity s = Some cv /\
              accel_meas = (Vector3.x (Twist.linear cv) - current_velocity_new s) / dt) /\
  decel_calc = - brake_new s / (wheel_radius s * vehicle_mass s) /\
  wheel_radius s * vehicle_mass s <> 0.
Proof.
  intros H Hd.
  destruct (loop_body_inv _ _ _ _ _ _ _ H) as
    [(_ & -> & _) | (wpts & cv & tw & cte & he & th & br & st & _ & Hv & _ & _ & _ & Hz & _ & ->)];
    cbn [diagnostics] in Hd; [discriminate Hd |].
  inversion Hd; subst. clear Hd.
  assert (Hdt : (1e-3 <= time - prevtime s /\ dt_used time (prevtime s) = time - prevtime s)
                \/ (time - prevtime s < 1e-3 /\ dt_used time (prevtime s) = 0.1)).
  { destruct (Rlt_dec (time - prevtime s) 1e-3) as [Hlt | Hge].
    - right. split; [exact Hlt | apply dt_used_floor; exact Hlt].
    - left. assert (Hle : 1e-3 <= time - prevtime s) by lra.
      split; [exact Hle | apply dt_used_raw; exact Hle]. }
  split; [destruct Hdt as [[H1 ->] | [_ ->]]; lra |].
  split; [exact Hdt |].
  split; [exists cv; split; [exact Hv | reflexivity] |].
  split; [reflexivity | exact Hz].
Qed.

Lemma diagnostics_of_a_tick_witness :
  1e-3 <= dt_used 0.1 0 /\
  ((1e-3 <= 0.1 - prevtime (enabled four_ahead) /\
    dt_used 0.1 0 = 0.1 - prevtime (enabled four_ahead))
   \/ (0.1 - prevtime (enabled four_ahead) < 1e-3 /\ dt_used 0.1 0 = 0.1)) /\
  (exists cv, current_velocity (enabled four_ahead) = Some cv /\
              (8 - 0.0) / dt_used 0.1 0
              = (Vector3.x (Twist.linear cv) - current_velocity_new (enabled four_ahead))
                  / dt_used 0.1 0) /\
  - 0.0 / (0.2413 * 1736.35)
    = - brake_new (enabled four_ahead)
        / (wheel_radius (enabled four_ahead) * vehicle_mass (enabled four_ahead)) /\
  wheel_radius (enabled four_ahead) * vehicle_mass (enabled four_ahead) <> 0.
Proof.
  exact (diagnostics_of_a_tick efq_level fit_on_axis (constant_control 0.5 20 0.1) 0.1
           (enabled four_ahead) _ _ _ _ _ loop_body_enabled_four_ahead eq_refl).
Defined.

(** X9. The brake latch compares with what the controller returned on the
    previous executed loop body, published or not. After a loop body on
    which the controller returned brake [br1] (enable flag on or off), and
    an enabling message, the next loop body calls the brake publisher when
    its brake differs from [br1] and only then; so a brake computed while
    disabled and still wanted after enabling is not published at all. *)
Theorem brake_published_iff_changed_since_last_tick
  (efq : list R -> R * R * R) (fit : list R -> list R -> nat -> result (list R))
  (c1 c2 : controller) (t1 t2 : R) (s : DBWNode)
  (wpts : list Waypoint.t) (cv tw : Twist.t) (cte he th1 br1 st1 th2 br2 st2 : R) :
  finalwpts s = Some wpts ->
  current_velocity s = Some cv ->
  twist_cmd s = Some tw ->
  Compute_CTE efq fit s = Ok (cte, he) ->
  control_call c1 tw cv cte (dbw_enabled s) = (th1, br1, st1) ->
  control_call c2 tw cv cte true = (th2, br2, st2) ->
  wheel_radius s * vehicle_mass s <> 0 ->
  exists s1 o1 s2 o2,
    loop_body efq fit c1 t1 s = Ok (s1, o1) /\
    loop_body efq fit c2 t2 (DBWEnabled_cb true s1) = Ok (s2, o2) /\
    calls Brake (published o2) = (if Rneb br1 br2 then 1 else 0)%nat /\
    (dbw_enabled s = false -> br1 = br2 ->
     calls Brake (published o1 ++ published o2) = 0%nat).
Proof.
  intros Hw Hv Ht Hc Hc1 Hc2 Hz.
  pose proof (loop_body_ready efq fit c1 t1 s _ _ _ _ _ _ _ _ Hw Hv Ht Hc Hc1 Hz) as H1.
  cbv zeta in H1.
  set (s1 := after_tick s cte he br1 (Vector3.x (Twist.linear cv)) t1) in *.
  assert (Hc' : Compute_CTE efq fit (DBWEnabled_cb true s1) = Ok (cte, he)) by exact Hc.
  pose proof (loop_body_ready efq fit c2 t2 (DBWEnabled_cb true s1) wpts cv tw cte he
                th2 br2 st2 Hw Hv Ht Hc' Hc2 Hz) as H2.
  cbv zeta in H2. cbn [dbw_enabled DBWEnabled_cb set_dbw_enabled] in H2.
  eexists. eexists. eexists. eexists.
  split; [exact H1 |]. split; [exact H2 |].
  cbn [published].
  match goal with
  | |- context [publish ?s2 th2 br2 st2] =>
      destruct (calls_publish s2 th2 br2 st2) as (_ & _ & Hb)
  end.
  cbn [after_tick brake_prev brake_new DBWEnabled_cb set_dbw_enabled s1] in Hb.
  split; [exact Hb |].
  intros Hd Hbr. rewrite Hd. rewrite calls_app. cbn [app]. rewrite Hb.
  subst br2. rewrite Rneb_same. reflexivity.
Qed.

(** Brake 20 computed while disabled, and again after enabling. *)
Lemma brake_published_iff_changed_since_last_tick_witness :
  exists s1 o1 s2 o2,
    loop_body efq_level fit_on_axis (constant_control 0 20 0) 0.1 (fed four_ahead)
      = Ok (s1, o1) /\
    loop_body efq_level fit_on_axis (constant_control 0.5 20 0.1) 0.2 (DBWEnabled_cb true s1)
      = Ok (s2, o2) /\
    calls Brake (published o2) = (if Rneb 20 20 then 1 else 0)%nat /\
    (dbw_enabled (fed four_ahead) = false -> 20 = 20 ->
     calls Brake (published o1 ++ published o2) = 0%nat).
Proof.
  exact (brake_published_iff_changed_since_last_tick efq_level fit_on_axis
           (constant_control 0 20 0) (constant_control 0.5 20 0.1) 0.1 0.2
           (fed four_ahead) four_ahead (twist_of 8 0) (twist_of 10 0) _ _
           0 20 0 0.5 20 0.1
           eq_refl eq_refl eq_refl
           (Compute_CTE_fed (wp 1 0) [wp 2 0; wp 3 0; wp 4 0])
           eq_refl eq_refl default_radius_mass).
Defined.

(** ** Runs of the node *)

Section RunFacts.

Variable efq : list R -> R * R * R.
Variable fit : list R -> list R -> nat -> result (list R).

(** A property of the node kept by every step, and a property of the
    publications made by every step from a node that has it, hold along
    every run. *)
Lemma run_invariant (I : DBWNode -> Prop) (P : publication -> Prop) :
  (forall ev s s' pubs,
      I s -> step efq fit ev s = Ok (s', pubs) -> I s' /\ Forall P pubs) ->
  forall evs s,
    I s ->
    Forall P (fst (run efq fit evs s)) /\
    (forall s', snd (run efq fit evs s) = Ok s' -> I s').
Proof.
  intros Hstep. induction evs as [| ev evs IH]; intros s Hs.
  - cbn [run fst snd]. split; [constructor |].
    intros s' H. inversion H; subst. exact Hs.
  - cbn [run].
    destruct (step efq fit ev s) as [[s1 pubs] | e] eqn:Hev.
    + destruct (Hstep ev s s1 pubs Hs Hev) as [Hs1 Hp].
      destruct (IH s1 Hs1) as [IH1 IH2].
      destruct (run efq fit evs s1) as [rest r]. cbn [fst snd] in *.
      split; [apply Forall_app; split; assumption | exact IH2].
    + cbn [fst snd]. split; [constructor | intros s' H; discriminate H].
Qed.

(** A step is a callback, which publishes nothing, or a loop body. *)
Lemma step_inv ev s s' pubs :
  step efq fit ev s = Ok (s', pubs) ->
  (pubs = [] /\
   ((exists w, ev = final_waypoints w /\ s' = finalwpts_cb w s) \/
    (exists b, ev = vehicle_dbw_enabled b /\ s' = DBWEnabled_cb b s) \/
    (exists p, ev = current_pose_msg p /\ s' = CurrPose_cb p s) \/
    (exists t, ev = current_velocity_msg t /\ s' = CurrVel_cb t s) \/
    (exists t, ev = twist_cmd_msg t /\ s' = TwistCmd_cb t s)))
  \/
  (exists control time obs,
      ev = tick control time /\
      loop_body efq fit control time s = Ok (s', obs) /\ pubs = published obs).
Proof.
  intros H. destruct ev as [w | b | p | t | t | control time]; cbn [step] in H.
  - inversion H; subst. left. split; [reflexivity |]. left. exists w. auto.
  - inversion H; subst. left. split; [reflexivity |]. right; left. exists b. auto.
  - inversion H; subst. left. split; [reflexivity |]. right; right; left. exists p. auto.
  - inversion H; subst. left. split; [reflexivity |].
    right; right; right; left. exists t. auto.
  - inversion H; subst. left. split; [reflexivity |].
    right; right; right; right. exists t. auto.
  - right.
    destruct (loop_body efq fit control time s) as [[s1 obs] | e] eqn:Hb;
      [| discriminate H].
    cbn [bind] in H. inversion H; subst.
    exists control, time, obs. auto.
Qed.

End RunFacts.

(** The fixed fields of the three messages: the enable bit, and the pedal
    command type of the throttle and of the brake. *)
Definition well_formed (p : publication) : bool :=
  match p with
  | throttle_pub m =>
      ThrottleCmd.enable m &&
      match ThrottleCmd.pedal_cmd_type m with CMD_PERCENT => true | CMD_TORQUE => false end
  | steer_pub m => SteeringCmd.enable m
  | brake_pub m =>
      BrakeCmd.enable m &&
      match BrakeCmd.pedal_cmd_type m with CMD_TORQUE => true | CMD_PERCENT => false end
  end.

Lemma publish_well_formed s throttle brake steer :
  Forall (fun p => well_formed p = true) (publish s throttle brake steer).
Proof.
  unfold publish.
  destruct (Rneb (throttle_prev s) throttle), (Rneb (steer_prev s) steer),
    (Rneb (brake_prev s) brake); repeat constructor.
Qed.

(** X10. Every message the node ever publishes, from any state and along any
    run, has its enable bit set; every throttle command is of type
    [CMD_PERCENT] and every brake command of type [CMD_TORQUE]. *)
Theorem published_messages_well_formed
  (efq : list R -> R * R * R) (fit : list R -> list R -> nat -> result (list R))
  (evs : list event) (s : DBWNode) :
  Forall (fun p => well_formed p = true) (fst (run efq fit evs s)).
Proof.
  apply (run_invariant efq fit (fun _ => True) (fun p => well_formed p = true));
    [| exact I].
  intros ev s0 s' pubs _ Hstep. split; [exact I |].
  destruct (step_inv efq fit ev s0 s' pubs Hstep) as
    [[-> _] | (control & time & obs & _ & Hb & ->)]; [constructor |].
  destruct (loop_body_inv _ _ _ _ _ _ _ Hb) as
    [(_ & -> & _) | (wpts & cv & tw & cte & he & th & br & st & _ & _ & _ & _ & _ & _ & _ & ->)];
    cbn [published]; [constructor |].
  destruct (dbw_enabled s0); [apply publish_well_formed | constructor].
Qed.

(** What a publication must not carry for X11. *)
Definition nonzero_command (p : publication) : Prop :=
  match p with
  | throttle_pub m => ThrottleCmd.pedal_cmd m <> 0
  | steer_pub m => SteeringCmd.steering_wheel_angle_cmd m <> 0
  | brake_pub _ => True
  end.

Lemma publish_nonzero s throttle brake steer :
  throttle_prev s = 0 -> steer_prev s = 0 ->
  Forall nonzero_command (publish s throttle brake steer).
Proof.
  intros Ht Hs. unfold publish, Rneb. rewrite Ht, Hs.
  destruct (Req_dec_T 0 throttle), (Req_dec_T 0 steer),
    (Req_dec_T (brake_prev s) brake);
    repeat constructor; cbn [nonzero_command ThrottleCmd.pedal_cmd
                             SteeringCmd.steering_wheel_angle_cmd]; auto.
Qed.

(** X11. Along any run from the initial state the node never publishes a
    throttle command of 0 nor a steering command of 0: [throttle_prev] and
    [steer_prev] stay at the 0.0 of [__init__], and [publish] skips a value
    equal to them. *)
Theorem zero_throttle_or_steer_never_published
  (efq : list R -> R * R * R) (fit : list R -> list R -> nat -> result (list R))
  (mass radius now : R) (evs : list event) :
  Forall nonzero_command (fst (run efq fit evs (init mass radius now))).
Proof.
  apply (run_invariant efq fit
           (fun s => throttle_prev s = 0 /\ steer_prev s = 0) nonzero_command).
  2:{ cbn [init throttle_prev steer_prev]. split; lra. }
  intros ev s0 s' pubs [Ht Hs] Hstep.
  destruct (step_inv efq fit ev s0 s' pubs Hstep) as
    [[-> Hcb] | (control & time & obs & _ & Hb & ->)].
  - split; [| constructor].
    destruct Hcb as [(w & _ & ->) | [(b & _ & ->) | [(p & _ & ->) |
                     [(t & _ & ->) | (t & _ & ->)]]]];
      split; assumption.
  - destruct (loop_body_keeps_throttle_steer_prev efq fit control time s0 s' obs Hb)
      as [Ht' Hs'].
    split; [split; congruence |].
    destruct (loop_body_inv _ _ _ _ _ _ _ Hb) as
      [(_ & -> & _) | (wpts & cv & tw & cte & he & th & br & st & _ & _ & _ & _ & _ & _ & Hs1 & ->)];
      cbn [published]; [constructor |].
    destruct (dbw_enabled s0); [| constructor].
    apply publish_nonzero; congruence.
Qed.

(** X12. From any state of the node, once a message on
    [/vehicle/dbw_enabled] carries [False], nothing is published until a
    message carries [True], however many loop bodies are executed and
    whatever the latches hold. *)
Theorem nothing_published_after_disable
  (efq : list R -> R * R * R) (fit : list R -> list R -> nat -> result (list R))
  (evs : list event) (s : DBWNode) :
  no_enable evs = true ->
  fst (run efq fit (vehicle_dbw_enabled false :: evs) s) = [].
Proof.
  intros Hn. cbn [run step].
  pose proof (run_disabled efq fit evs (DBWEnabled_cb false s) eq_refl Hn) as H.
  destruct (run efq fit evs (DBWEnabled_cb false s)) as [rest r].
  cbn [fst] in H |- *. rewrite H. reflexivity.
Qed.

Lemma nothing_published_after_disable_witness :
  fst (run efq_level fit_on_axis
         (vehicle_dbw_enabled false ::
            [tick (constant_control 0.5 20 0.1) 0.1; tick (constant_control 0.6 30 0.2) 0.2])
         (enabled four_ahead)) = [].
Proof.
  exact (nothing_published_after_disable efq_level fit_on_axis
           [tick (constant_control 0.5 20 0.1) 0.1; tick (constant_control 0.6 30 0.2) 0.2]
           (enabled four_ahead) eq_refl).
Defined.

(** No message on [/final_waypoints], or none on [/current_velocity]. *)
Definition no_path (evs : list event) : bool :=
  forallb (fun ev => match ev with final_waypoints _ => false | _ => true end) evs.

Definition no_velocity (evs : list event) : bool :=
  forallb (fun ev => match ev with current_velocity_msg _ => false | _ => true end) evs.

(** The fields that only the loop body writes. *)
Definition bookkeeping (s : DBWNode) : list R :=
  [CTE s; heading_err s; throttle_prev s; steer_prev s; brake_prev s; brake_new s;
   current_velocity_prev s; current_velocity_new s; prevtime s].

Section Idle.

Variable efq : list R -> R * R * R.
Variable fit : list R -> list R -> nat -> result (list R).

Lemma run_idle (missing : DBWNode -> Prop) (quiet : event -> bool) :
  (forall s, missing s -> finalwpts s = None \/ current_velocity s = None) ->
  (forall ev s s' pubs,
      quiet ev = true -> missing s -> step efq fit ev s = Ok (s', pubs) ->
      missing s') ->
  forall evs s,
    missing s -> forallb quiet evs = true ->
    exists s', run efq fit evs s = ([], Ok s') /\ bookkeeping s' = bookkeeping s.
Proof.
  intros Hmiss Hkeep. induction evs as [| ev evs IH]; intros s Hs Hq.
  - exists s. split; reflexivity.
  - cbn [forallb] in Hq. apply andb_true_iff in Hq. destruct Hq as [Hev Hq].
    assert (Hstep : exists s1, step efq fit ev s = Ok (s1, []) /\
                               bookkeeping s1 = bookkeeping s).
    { destruct ev as [w | b | p | t | t | control time]; cbn [step];
        try (eexists; split; reflexivity).
      rewrite (loop_body_skip efq fit control time s (Hmiss s Hs)). cbn [bind published].
      exists s. split; reflexivity. }
    destruct Hstep as (s1 & Hs1 & Hb1).
    destruct (IH s1 (Hkeep ev s s1 [] Hev Hs Hs1) Hq) as (s' & Hr & Hb).
    exists s'. cbn [run]. rewrite Hs1, Hr. split; [reflexivity | congruence].
Qed.

End Idle.

(** X13. As long as no path has arrived, or no velocity has arrived, the
    loop does nothing at all: a run from the initial state without a message
    on [/final_waypoints], or without one on [/current_velocity], never
    raises, publishes nothing and leaves every field that the loop body
    writes (deviation, latches, previous brake and velocity, previous time)
    as [__init__] set it, whatever arrives on the other topics. *)
Theorem run_without_path_or_velocity_is_idle
  (efq : list R -> R * R * R) (fit : list R -> list R -> nat -> result (list R))
  (mass radius now : R) (evs : list event) :
  no_path evs = true \/ no_velocity evs = true ->
  exists s,
    run efq fit evs (init mass radius now) = ([], Ok s) /\
    bookkeeping s = bookkeeping (init mass radius now).
Proof.
  intros [H | H].
  - apply (run_idle efq fit (fun s => finalwpts s = None)
             (fun ev => match ev with final_waypoints _ => false | _ => true end));
      [intros s Hs; left; exact Hs | | reflexivity | exact H].
    intros ev s s' pubs Hq Hs Hstep.
    destruct (step_inv efq fit ev s s' pubs Hstep) as
      [[_ Hcb] | (control & time & obs & _ & Hb & _)].
    + destruct Hcb as [(w & -> & _) | [(b & _ & ->) | [(p & _ & ->) |
                       [(t & _ & ->) | (t & _ & ->)]]]];
        [discriminate Hq | exact Hs ..].
    + destruct (loop_body_keeps_inputs efq fit control time s s' obs Hb) as (-> & _).
      exact Hs.
  - apply (run_idle efq fit (fun s => current_velocity s = None)
             (fun ev => match ev with current_velocity_msg _ => false | _ => true end));
      [intros s Hs; right; exact Hs | | reflexivity | exact H].
    intros ev s s' pubs Hq Hs Hstep.
    destruct (step_inv efq fit ev s s' pubs Hstep) as
      [[_ Hcb] | (control & time & obs & _ & Hb & _)].
    + destruct Hcb as [(w & _ & ->) | [(b & _ & ->) | [(p & _ & ->) |
                       [(t & -> & _) | (t & _ & ->)]]]];
        [exact Hs | exact Hs | exact Hs | discriminate Hq | exact Hs].
    + destruct (loop_body_keeps_inputs efq fit control time s s' obs Hb) as (_ & _ & _ & -> & _).
      exact Hs.
Qed.

(** Everything but the velocity arrives, the node is enabled, ticks run. *)
Definition ticks_without_velocity : list event :=
  [ final_waypoints four_ahead; current_pose_msg pose_origin;
    twist_cmd_msg (twist_of 10 0); vehicle_dbw_enabled true;
    tick (constant_control 0.5 20 0.1) 0.1;
    tick (constant_control 0.6 30 0.2) 0.2 ].

Lemma run_without_path_or_velocity_is_idle_witness :
  exists s,
    run efq_level fit_on_axis ticks_without_velocity started = ([], Ok s) /\
    bookkeeping s = bookkeeping started.
Proof.
  exact (run_without_path_or_velocity_is_idle efq_level fit_on_axis 1736.35 0.2413 0
           ticks_without_velocity (or_intror eq_refl)).
Defined.

(** The deviation stored in the node is within the clamps. *)
Definition deviation_in_range (s : DBWNode) : Prop :=
  -5 <= CTE s <= 5 /\ - (PI / 2) < heading_err s < PI / 2.


(** All data arrives, the node is enabled, one loop body runs. *)
Definition feed_enable_tick : list event :=
  [ final_waypoints four_ahead; current_pose_msg pose_origin;
    current_velocity_msg (twist_of 8 0); twist_cmd_msg (twist_of 10 0);
    vehicle_dbw_enabled true;
    tick (constant_control 0.5 20 0.1) 0.1 ].

Lemma run_feed_enable_tick :
  snd (run efq_level fit_on_axis feed_enable_tick started)
  = Ok (after_tick (enabled four_ahead) (clamp (-5) 5 0)
          (clamp (- (PI / 2)) (PI / 2) (atan 0)) 20 8 0.1).
Proof.
  unfold feed_enable_tick. cbn [run step].
  change (DBWEnabled_cb true
            (TwistCmd_cb (twist_of 10 0)
               (CurrVel_cb (twist_of 8 0)
                  (CurrPose_cb pose_origin (finalwpts_cb four_ahead started)))))
    with (enabled four_ahead).
  rewrite loop_body_enabled_four_ahead. reflexivity.
Qed.


(** ** When the loop keeps running *)

(** Every input has arrived. *)
Definition all_inputs (s : DBWNode) : bool :=
  is_not_None (finalwpts s) && is_not_None (current_velocity s) &&
  is_not_None (twist_cmd s) && is_not_None (current_pose s) &&
  is_not_None (current_orient s).

(** The fit returns, with at least three coefficients, on every input. *)
Definition fit_always_returns (fit : list R -> list R -> nat -> result (list R)) : Prop :=
  forall xs ys, exists coeffs slope,
      fit xs ys 3%nat = Ok coeffs /\ nth_error coeffs 2 = Some slope.

Section Alive.

Variable efq : list R -> R * R * R.
Variable fit : list R -> list R -> nat -> result (list R).
Hypothesis fit_total : fit_always_returns fit.

Lemma all_inputs_inv s :
  all_inputs s = true ->
  exists wpts cv tw pos orient,
    finalwpts s = Some wpts /\ current_velocity s = Some cv /\ twist_cmd s = Some tw /\
    current_pose s = Some pos /\ current_orient s = Some orient.
Proof.
  unfold all_inputs. intros H.
  destruct (finalwpts s) as [wpts |]; [| discriminate H].
  destruct (current_velocity s) as [cv |]; [| discriminate H].
  destruct (twist_cmd s) as [tw |]; [| discriminate H].
  destruct (current_pose s) as [pos |]; [| discriminate H].
  destruct (current_orient s) as [orient |]; [| discriminate H].
  exists wpts, cv, tw, pos, orient. repeat split; reflexivity.
Qed.

Lemma loop_body_alive control time s :
  all_inputs s = true ->
  wheel_radius s * vehicle_mass s <> 0 ->
  exists s' obs,
    loop_body efq fit control time s = Ok (s', obs) /\
    all_inputs s' = true /\
    wheel_radius s' * vehicle_mass s' <> 0.
Proof.
  intros Ha Hz.
  destruct (all_inputs_inv s Ha) as (wpts & cv & tw & pos & orient & Hw & Hv & Ht & Hp & Ho).
  destruct (fit_total (map fst (body_points efq pos orient wpts))
                      (map snd (body_points efq pos orient wpts)))
    as (coeffs & slope & Hf & Hn).
  assert (Hc : Compute_CTE efq fit s = Ok (clamp (-5) 5 (last coeffs 0), atan slope)).
  { rewrite (Compute_CTE_unfold efq fit s pos orient wpts Hp Ho Hw), Hf.
    cbn [bind]. apply from_coefficients_any. exact Hn. }
  destruct (control_call control tw cv (clamp (-5) 5 (last coeffs 0)) (dbw_enabled s))
    as [[th br] st] eqn:Hctl.
  pose proof (loop_body_ready efq fit control time s _ _ _ _ _ _ _ _
                Hw Hv Ht Hc Hctl Hz) as H.
  cbv zeta in H.
  eexists. eexists. split; [exact H |].
  split; [exact Ha | exact Hz].
Qed.

Lemma run_alive evs : forall s,
  all_inputs s = true ->
  wheel_radius s * vehicle_mass s <> 0 ->
  exists s', snd (run efq fit evs s) = Ok s' /\ all_inputs s' = true.
Proof.
  induction evs as [| ev evs IH]; intros s Ha Hz.
  - exists s. split; [reflexivity | exact Ha].
  - assert (Hstep : exists s1 pubs,
               step efq fit ev s = Ok (s1, pubs) /\ all_inputs s1 = true /\
               wheel_radius s1 * vehicle_mass s1 <> 0).
    { destruct (all_inputs_inv s Ha)
        as (wpts & cv & tw & pos & orient & Hw & Hv & Ht & Hp & Ho).
      destruct ev as [w | b | p | t | t | control time]; cbn [step].
      - eexists. eexists. split; [reflexivity |]. split; [| exact Hz].
        unfold all_inputs. cbn. rewrite Hv, Ht, Hp, Ho. reflexivity.
      - eexists. eexists. split; [reflexivity |]. split; [exact Ha | exact Hz].
      - eexists. eexists. split; [reflexivity |]. split; [| exact Hz].
        unfold all_inputs. cbn. rewrite Hw, Hv, Ht. reflexivity.
      - eexists. eexists. split; [reflexivity |]. split; [| exact Hz].
        unfold all_inputs. cbn. rewrite Hw, Ht, Hp, Ho. reflexivity.
      - eexists. eexists. split; [reflexivity |]. split; [| exact Hz].
        unfold all_inputs. cbn. rewrite Hw, Hv, Hp, Ho. reflexivity.
      - destruct (loop_body_alive control time s Ha Hz) as (s1 & obs & Hb & Ha1 & Hz1).
        rewrite Hb. cbn [bind]. eexists. eexists.
        split; [reflexivity |]. split; [exact Ha1 | exact Hz1]. }
    destruct Hstep as (s1 & pubs & Hs1 & Ha1 & Hz1).
    destruct (IH s1 Ha1 Hz1) as (s' & Hr & Ha').
    exists s'. cbn [run]. rewrite Hs1.
    destruct (run efq fit evs s1) as [rest r]. cbn [snd] in Hr |- *.
    split; [exact Hr | exact Ha'].
Qed.

End Alive.


Lemma fit_steep_always_returns : fit_always_returns fit_steep.
Proof. intros xs ys. exists [1; -2; 1000; 42], 1000. split; reflexivity. Qed.


(** ** An empty path *)

(** X16. An empty list of waypoints is not [None]: it passes the test of
    line 88, [np.polyfit] is called on two empty vectors, and the exception
    it raises there leaves [Compute_CTE] and ends the loop body. *)
Theorem empty_path_reaches_the_fit
  (efq : list R -> R * R * R) (fit : list R -> list R -> nat -> result (list R))
  (control : controller) (time : R) (s : DBWNode)
  (cv tw : Twist.t) (pos : Point.t) (orient : Quaternion.t) (e : exn) :
  finalwpts s = Some [] ->
  current_velocity s = Some cv ->
  twist_cmd s = Some tw ->
  current_pose s = Some pos ->
  current_orient s = Some orient ->
  fit [] [] 3%nat = Raise e ->
  Compute_CTE efq fit s = Raise e /\
  loop_body efq fit control time s = Raise e.
Proof.
  intros Hw Hv Ht Hp Ho Hf.
  assert (Hc : Compute_CTE efq fit s = Raise e).
  { rewrite (Compute_CTE_unfold efq fit s pos orient [] Hp Ho Hw).
    cbn [body_points map]. rewrite Hf. reflexivity. }
  split; [exact Hc |].
  exact (loop_body_estimator_raises efq fit control time s [] cv tw e Hw Hv Ht Hc).
Qed.

Lemma empty_path_reaches_the_fit_witness :
  Compute_CTE efq_level fit_on_axis (enabled []) = Raise TypeError /\
  loop_body efq_level fit_on_axis (constant_control 0.5 20 0.1) 0.1 (enabled [])
    = Raise TypeError.
Proof.
  exact (empty_path_reaches_the_fit efq_level fit_on_axis (constant_control 0.5 20 0.1) 0.1
           (enabled []) (twist_of 8 0) (twist_of 10 0) (Point.mk 0 0 0) q_level TypeError
           eq_refl eq_refl eq_refl eq_refl eq_refl eq_refl).
Defined.

(** ** The callbacks *)

(** The topic of a message; the loop body is not one. *)
Definition topic (ev : event) : option nat :=
  match ev with
  | final_waypoints _ => Some 0%nat
  | vehicle_dbw_enabled _ => Some 1%nat
  | current_pose_msg _ => Some 2%nat
  | current_velocity_msg _ => Some 3%nat
  | twist_cmd_msg _ => Some 4%nat
  | tick _ _ => None
  end.

(** X17. The callbacks overwrite and do nothing else: of two messages on the
    same topic only the later one counts, and two messages on different
    topics leave the node in the same state in either order. *)
Theorem messages_overwrite_and_commute
  (efq : list R -> R * R * R) (fit : list R -> list R -> nat -> result (list R))
  (e1 e2 : event) (n1 n2 : nat) (s : DBWNode) :
  topic e1 = Some n1 ->
  topic e2 = Some n2 ->
  (n1 = n2 -> run efq fit [e1; e2] s = run efq fit [e2] s) /\
  (n1 <> n2 -> run efq fit [e1; e2] s = run efq fit [e2; e1] s).
Proof.
  intros H1 H2.
  destruct e1 as [w1 | b1 | p1 | t1 | t1 | c1 time1]; cbn [topic] in H1;
    try discriminate H1;
    destruct e2 as [w2 | b2 | p2 | t2 | t2 | c2 time2]; cbn [topic] in H2;
    try discriminate H2;
    inversion H1; inversion H2; subst;
    (split; intros Hn; [try discriminate Hn | try (exfalso; apply Hn; reflexivity)]);
    reflexivity.
Qed.

Lemma messages_overwrite_and_commute_witness :
  (3%nat = 0%nat ->
   run efq_level fit_on_axis
     [current_velocity_msg (twist_of 8 0); final_waypoints four_ahead] started
   = run efq_level fit_on_axis [final_waypoints four_ahead] started) /\
  (3%nat <> 0%nat ->
   run efq_level fit_on_axis
     [current_velocity_msg (twist_of 8 0); final_waypoints four_ahead] started
   = run efq_level fit_on_axis
       [final_waypoints four_ahead; current_velocity_msg (twist_of 8 0)] started).
Proof.
  exact (messages_overwrite_and_commute efq_level fit_on_axis
           (current_velocity_msg (twist_of 8 0)) (final_waypoints four_ahead)
           3%nat 0%nat started eq_refl eq_refl).
Defined.

(** ** What an enabled loop body publishes *)

(** X18. In a state reached from the initial one, an enabled loop body that
    has its inputs publishes, in this order: the throttle when it is not 0,
    the steering when it is not 0, and the brake when it differs from the
    brake the controller returned on the previous executed loop body. *)
Theorem publications_of_an_enabled_tick
  (efq : list R -> R * R * R) (fit : list R -> list R -> nat -> result (list R))
  (mass radius now : R) (evs : list event)
  (control : controller) (time : R) (s : DBWNode)
  (wpts : list Waypoint.t) (cv tw : Twist.t) (cte he throttle brake steering : R) :
  snd (run efq fit evs (init mass radius now)) = Ok s ->
  dbw_enabled s = true ->
  finalwpts s = Some wpts ->
  current_velocity s = Some cv ->
  twist_cmd s = Some tw ->
  Compute_CTE efq fit s = Ok (cte, he) ->
  control_call control tw cv cte true = (throttle, brake, steering) ->
  wheel_radius s * vehicle_mass s <> 0 ->
  publications_of (loop_body efq fit control time s)
  = (if Rneb 0 throttle
     then [throttle_pub (ThrottleCmd.mk true CMD_PERCENT throttle)] else [])
    ++ (if Rneb 0 steering then [steer_pub (SteeringCmd.mk true steering)] else [])
    ++ (if Rneb (brake_new s) brake
        then [brake_pub (BrakeCmd.mk true CMD_TORQUE brake)] else []).
Proof.
  intros Hrun He Hw Hv Ht Hc Hctl Hz.
  destruct (run_keeps_throttle_steer_prev efq fit evs (init mass radius now) s Hrun)
    as [Hth Hst].
  cbn [init throttle_prev steer_prev] in Hth, Hst.
  rewrite <- He in Hctl.
  rewrite (loop_body_ready efq fit control time s _ _ _ _ _ _ _ _ Hw Hv Ht Hc Hctl Hz).
  cbn [publications_of published]. rewrite He. unfold publish.
  cbn [after_tick throttle_prev steer_prev brake_prev].
  rewrite Hth, Hst. replace 0.0 with 0 by lra. reflexivity.
Qed.

Lemma run_to_enabled :
  snd (run efq_level fit_on_axis
         [ final_waypoints four_ahead; current_pose_msg pose_origin;
           current_velocity_msg (twist_of 8 0); twist_cmd_msg (twist_of 10 0);
           vehicle_dbw_enabled true ] started)
  = Ok (enabled four_ahead).
Proof. reflexivity. Qed.

(** Throttle 0, steering 0.1 and brake 0 right after enabling: only the
    steering goes out. *)
Lemma publications_of_an_enabled_tick_witness :
  publications_of
    (loop_body efq_level fit_on_axis (constant_control 0 0 0.1) 0.1 (enabled four_ahead))
  = (if Rneb 0 0 then [throttle_pub (ThrottleCmd.mk true CMD_PERCENT 0)] else [])
    ++ (if Rneb 0 0.1 then [steer_pub (SteeringCmd.mk true 0.1)] else [])
    ++ (if Rneb (brake_new (enabled four_ahead)) 0
        then [brake_pub (BrakeCmd.mk true CMD_TORQUE 0)] else []).
Proof.
  exact (publications_of_an_enabled_tick efq_level fit_on_axis 1736.35 0.2413 0
           [ final_waypoints four_ahead; current_pose_msg pose_origin;
             current_velocity_msg (twist_of 8 0); twist_cmd_msg (twist_of 10 0);
             vehicle_dbw_enabled true ]
           (constant_control 0 0 0.1) 0.1 (enabled four_ahead)
           four_ahead (twist_of 8 0) (twist_of 10 0) _ _ 0 0 0.1
           run_to_enabled eq_refl eq_refl eq_refl eq_refl
           (Compute_CTE_fed (wp 1 0) [wp 2 0; wp 3 0; wp 4 0])
           eq_refl default_radius_mass).
Defined.

(** ** A path that is a cubic *)

Lemma squared_error_on_curve p pts :
  Forall (fun xy => polyval p (fst xy) = snd xy) pts -> squared_error p pts = 0.
Proof.
  induction 1 as [| xy pts Hxy _ IH]; cbn [squared_error fold_right].
  - reflexivity.
  - fold (squared_error p pts). rewrite IH, Hxy. ring.
Qed.


(** Waypoints two metres to the left of a level car at the origin. *)
Definition four_offset : list Waypoint.t := [wp 1 2; wp 2 2; wp 3 2; wp 4 2].

(** [np.polyfit] on points that all have [y = 2]. *)
Definition fit_offset_2 : list R -> list R -> nat -> result (list R) :=
  fun _ _ _ => Ok [0; 0; 0; 2].

Lemma car_body_level_xy (x y : R) : car_body 0 0 (-1 * 0) (wp x y) = (x, y).
Proof.
  unfold car_body, wp. cbn [Point.x Point.y Pose.position Waypoint.pose].
  replace (-1 * 0) with 0 by lra. rewrite sin_0, cos_0. f_equal; lra.
Qed.

Lemma body_points_four_offset :
  body_points efq_level (Point.mk 0 0 0) q_level four_offset
    = [(1, 2); (2, 2); (3, 2); (4, 2)].
Proof.
  unfold body_points, corrected_yaw, efq_level, four_offset.
  cbn [map snd Point.x Point.y].
  rewrite !car_body_level_xy. reflexivity.
Qed.

Lemma four_offset_on_curve :
  Forall (fun xy => polyval [0; 0; 0; 2] (fst xy) = snd xy)
         (body_points efq_level (Point.mk 0 0 0) q_level four_offset).
Proof.
  rewrite body_points_four_offset.
  repeat constructor; rewrite polyval_cubic; cbn [fst snd]; lra.
Qed.

Lemma four_offset_distinct :
  NoDup (map fst (body_points efq_level (Point.mk 0 0 0) q_level four_offset)).
Proof.
  rewrite body_points_four_offset. cbn [map fst].
  repeat constructor; cbn [In]; intros H; lra.
Qed.

Lemma four_offset_least_squares :
  least_squares_cubic (body_points efq_level (Point.mk 0 0 0) q_level four_offset)
    [0; 0; 0; 2].
Proof.
  intros a b c d.
  rewrite (squared_error_on_curve _ _ four_offset_on_curve).
  apply squared_error_nonneg.
Qed.

